(** * zvukiStats: a shallow embedding of the ingestion, aggregation and
      lookup code, with the properties checked against it.

    Source files embedded here:
    - [zvukiStats/__main__.py]   ([main])
    - [zvukiStats/fetcher.py]    ([Fetcher])
    - [zvukiStats/db_manager.py] ([DBManager])
    - [zvukiStats/table.py]      ([get_instance_queryset], [create_rich_table])
    - [zvukiStats/info_panel.py] ([PanelQueryHandler])

    Coroutines are modelled in a state-and-exception monad over a world
    that holds the collection, the list [panel_queryset.results] and a
    trace of the observable calls (HTTP requests, store calls, log lines).
    [asyncio.gather] is modelled by one admissible schedule: the tasks run
    one after the other in creation order. *)

From Stdlib Require Import List String Ascii ZArith QArith Qminmax Lia Bool.
From Stdlib Require Import Permutation Sorted DecimalString Arith Factorial.
Import ListNotations.

Local Open Scope string_scope.
Local Open Scope list_scope.
Local Open Scope Z_scope.

(* ================================================================== *)
(** ** Python built-ins used by the source *)
(* ================================================================== *)

Module Py.

(** [sep.join(words)] *)
Fixpoint join (sep : string) (words : list string) : string :=
  match words with
  | [] => EmptyString
  | [w] => w
  | w :: rest => String.append w (String.append sep (join sep rest))
  end.

(** [str(n)] for an integer. *)
Definition str_of_int (n : Z) : string :=
  NilZero.string_of_int (Z.to_int n).

(** [range(lo, hi)] *)
Definition range (lo hi : Z) : list Z :=
  map (fun k => lo + Z.of_nat k) (seq 0 (Z.to_nat (hi - lo))).

(** [round(n / d)] for integers [n], [d] with [d <> 0]: Python 3 rounds the
    quotient to the nearest integer and a tie to the even neighbour.  The
    quotient is taken exactly; for a catalogue size and a chunk size below
    [2^51] the float quotient of the source rounds to the same integer
    (beyond that range the two can differ, and the float division can
    overflow). *)
Definition round_div (n d : Z) : Z :=
  let n' := if d <? 0 then - n else n in
  let d' := Z.abs d in
  let q := n' / d' in
  let r := n' mod d' in
  match 2 * r ?= d' with
  | Lt => q
  | Gt => q + 1
  | Eq => if Z.even q then q else q + 1
  end.

(** Every way of taking one element out of a list, by position, with the
    elements left over in their order. *)
Fixpoint picks {A} (l : list A) : list (A * list A) :=
  match l with
  | [] => []
  | x :: rest => (x, rest) :: map (fun p => (fst p, x :: snd p)) (picks rest)
  end.

(** [itertools.permutations(pool, r)]: the [r]-length arrangements of the
    pool, elements distinguished by position, in lexicographic order of
    the positions (the order the library documents). *)
Fixpoint permutations {A} (pool : list A) (r : nat) : list (list A) :=
  match r with
  | O => [[]]
  | S r' =>
      flat_map (fun p => map (cons (fst p)) (permutations (snd p) r'))
               (picks pool)
  end.

End Py.

(* ================================================================== *)
(** ** Exceptions, exits and the coroutine monad *)
(* ================================================================== *)

(** The exception classes the source names or can meet.  All of them derive
    from [Exception]; [InvalidURL] also derives from [ClientError]
    (aiohttp). *)
Inductive exc_class :=
| InvalidURL | ClientError | TypeError | ZeroDivisionError
| AttributeError | OtherException.

Record exc := mkExc { exc_cls : exc_class; exc_msg : string }.

(** [isinstance(e, cls)], as an [except cls] clause tests it. *)
Definition isinstance (e : exc) (cls : exc_class) : bool :=
  match cls, exc_cls e with
  | InvalidURL, InvalidURL => true
  | ClientError, (InvalidURL | ClientError) => true
  | TypeError, TypeError => true
  | ZeroDivisionError, ZeroDivisionError => true
  | AttributeError, AttributeError => true
  | OtherException, OtherException => true
  | _, _ => false
  end.

(** The argument of [sys.exit]. *)
Inductive exit_arg :=
| ExitNone                      (* sys.exit()        *)
| ExitCode (code : Z)           (* sys.exit(1)       *)
| ExitMessage (msg : string).   (* sys.exit("text")  *)

(** The process status the interpreter derives from a [SystemExit]: the
    integer itself, 0 for [None], and 1 for any other object (which it
    prints to stderr). *)
Definition exit_status (a : exit_arg) : Z :=
  match a with
  | ExitNone => 0
  | ExitCode c => c
  | ExitMessage _ => 1
  end.

(** How a coroutine ends: it returns, it raises an [Exception], or it raises
    [SystemExit] (a [BaseException], which [except Exception] lets through). *)
Inductive outcome (A : Type) :=
| Returned (a : A)
| Raised (e : exc)
| SystemExit (arg : exit_arg).
Arguments Returned {A} a.
Arguments Raised {A} e.
Arguments SystemExit {A} arg.

(** *** Stored documents *)

(** A BSON leaf value.  Numbers are exact rationals. *)
Inductive bson :=
| BNull
| BNum (q : Q)
| BStr (s : string).

(** A document, by its leaf fields: each is addressed by its dotted path
    (["main_author.cover_name"]), which is how every query of
    [db_manager.py] addresses them. *)
Definition document := list (string * bson).

Fixpoint get_field (path : string) (d : document) : option bson :=
  match d with
  | [] => None
  | (k, v) :: rest => if String.eqb k path then Some v else get_field path rest
  end.

(** A missing field reads as null in [$group], [$sort] and [$first]. *)
Definition field_or_null (path : string) (d : document) : bson :=
  match get_field path d with
  | Some v => v
  | None => BNull
  end.

(** *** Aggregation pipelines, as data *)

Inductive accumulator :=
| AccSum1                      (* {'$sum': 1}        *)
| AccFirst (path : string)     (* {'$first': '$p'}   *)
| AccAvg (path : string).      (* {'$avg': '$p'}     *)

Inductive stage :=
| Group (id_path : string) (accs : list (string * accumulator))
| MatchGte (field : string) (bound : Q)
| Sort (field : string) (direction : Z)
| Skip (n : nat)
| Limit (n : nat).

Definition pipeline := list stage.

(** *** Observable calls *)

Inductive event :=
| HttpGet (url : string)
| CreateTask (url : string)
| EstimatedDocumentCount
| InsertMany (documents : option (list document))
| DropCollection
| CountDocuments (instance pattern : string)
| Find (regex : option (string * string)) (sort_field : string)
| Aggregate (p : pipeline)
| LoggerInfo (msg : string)
| LoggerError (msg : string)
| ConsoleLog (msg : string)
| ConsolePrint (what : string).

(** An element of [PanelQueryHandler.results]: a number or a record. *)
Inductive result_item :=
| RInt (n : Z)
| RRow (d : document).

Record world := mkWorld {
  collection : list document;        (* db.test_collection          *)
  results : list result_item;        (* panel_queryset.results      *)
  trace : list event                 (* calls made so far, in order *)
}.

Definition M (A : Type) : Type := world -> outcome A * world.

Definition ret {A} (a : A) : M A := fun w => (Returned a, w).

Definition bind {A B} (m : M A) (k : A -> M B) : M B :=
  fun w =>
    match m w with
    | (Returned a, w') => k a w'
    | (Raised e, w') => (Raised e, w')
    | (SystemExit c, w') => (SystemExit c, w')
    end.

Definition raise {A} (e : exc) : M A := fun w => (Raised e, w).

(** [sys.exit(arg)] *)
Definition sys_exit {A} (arg : exit_arg) : M A := fun w => (SystemExit arg, w).

(** [try: body / except Exception as e: handler e] *)
Definition try_except {A} (body : M A) (handler : exc -> M A) : M A :=
  fun w =>
    match body w with
    | (Raised e, w') => handler e w'
    | other => other
    end.

Definition emit (e : event) : M unit :=
  fun w => (Returned tt, mkWorld (collection w) (results w) (trace w ++ [e])).

Definition get_collection : M (list document) :=
  fun w => (Returned (collection w), w).

Definition set_collection (docs : list document) : M unit :=
  fun w => (Returned tt, mkWorld docs (results w) (trace w)).

Definition results_append (r : result_item) : M unit :=
  fun w => (Returned tt, mkWorld (collection w) (results w ++ [r]) (trace w)).

Declare Scope coro_scope.
Delimit Scope coro_scope with coro.
Notation "x <- m ;; k" := (bind m (fun x => k))
  (at level 61, m at next level, right associativity) : coro_scope.
Notation "m ;;; k" := (bind m (fun _ => k))
  (at level 61, right associativity) : coro_scope.
Local Open Scope coro_scope.

(** [for x in xs: body x] *)
Fixpoint for_each {A} (xs : list A) (body : A -> M unit) : M unit :=
  match xs with
  | [] => ret tt
  | x :: rest => body x ;;; for_each rest body
  end.

Definition logger_info (msg : string) : M unit := emit (LoggerInfo msg).
Definition logger_error (msg : string) : M unit := emit (LoggerError msg).
Definition console_log (msg : string) : M unit := emit (ConsoleLog msg).
Definition console_print (what : string) : M unit := emit (ConsolePrint what).

(** String building for the f-strings of the source. *)
Definition cat (parts : list string) : string := Py.join "" parts.

(* ================================================================== *)
(** ** The document store: what the calls of [db_manager.py] compute *)
(* ================================================================== *)

Module Mongo.

(** BSON comparison order across types: null, then numbers, then
    strings. *)
Definition bson_ltb (a b : bson) : bool :=
  match a, b with
  | BNull, BNull => false
  | BNull, _ => true
  | BNum _, BNull => false
  | BNum p, BNum q => negb (Qle_bool q p)
  | BNum _, BStr _ => true
  | BStr s, BStr t => String.ltb s t
  | BStr _, _ => false
  end.

Definition bson_eqb (a b : bson) : bool :=
  match a, b with
  | BNull, BNull => true
  | BNum p, BNum q => Qeq_bool p q
  | BStr s, BStr t => String.eqb s t
  | _, _ => false
  end.

(** [comes_first field direction y x]: [y] must stay ahead of [x] in the
    output of [$sort] on [field] ([direction] is -1 for descending). *)
Definition comes_first (field : string) (direction : Z) (y x : document) : bool :=
  if direction <? 0
  then bson_ltb (field_or_null field x) (field_or_null field y)
  else bson_ltb (field_or_null field y) (field_or_null field x).

(** Sorting is the stable insertion sort: rows with equal keys keep the
    order they arrive in (the store fixes no order among ties). *)
Fixpoint insert_row (ahead : document -> document -> bool)
         (x : document) (sorted : list document) : list document :=
  match sorted with
  | [] => [x]
  | y :: rest =>
      if ahead y x then y :: insert_row ahead x rest else x :: sorted
  end.

Definition sort_rows (ahead : document -> document -> bool)
           (rows : list document) : list document :=
  fold_right (insert_row ahead) [] rows.

(** [$group]: the rows are partitioned by the value of the id path, the
    groups listed in order of first occurrence. *)
Fixpoint add_member (k : bson) (d : document)
         (groups : list (bson * list document)) : list (bson * list document) :=
  match groups with
  | [] => [(k, [d])]
  | (k', members) :: rest =>
      if bson_eqb k' k then (k', members ++ [d]) :: rest
      else (k', members) :: add_member k d rest
  end.

Definition partition_by (id_path : string) (rows : list document)
  : list (bson * list document) :=
  fold_left (fun groups d => add_member (field_or_null id_path d) d groups)
            rows [].

(** The numeric values of a field over the members of a group ([$avg]
    ignores the others). *)
Definition numeric_values (path : string) (members : list document) : list Q :=
  flat_map (fun d => match get_field path d with
                     | Some (BNum q) => [q]
                     | _ => []
                     end) members.

Definition Qsum (l : list Q) : Q := fold_right Qplus 0%Q l.

Definition eval_acc (a : accumulator) (members : list document) : bson :=
  match a with
  | AccSum1 => BNum (inject_Z (Z.of_nat (List.length members)))
  | AccFirst path =>
      match members with
      | d :: _ => field_or_null path d
      | [] => BNull
      end
  | AccAvg path =>
      match numeric_values path members with
      | [] => BNull
      | vs => BNum (Qsum vs / inject_Z (Z.of_nat (List.length vs)))
      end
  end.

Definition group_row (accs : list (string * accumulator))
           (g : bson * list document) : document :=
  ("_id", fst g) :: map (fun na => (fst na, eval_acc (snd na) (snd g))) accs.

(** [{field: {'$gte': bound}}] with a numeric bound holds of numbers only. *)
Definition gte_match (field : string) (bound : Q) (d : document) : bool :=
  match get_field field d with
  | Some (BNum q) => Qle_bool bound q
  | _ => false
  end.

Definition run_stage (s : stage) (rows : list document) : list document :=
  match s with
  | Group id_path accs => map (group_row accs) (partition_by id_path rows)
  | MatchGte field bound => filter (gte_match field bound) rows
  | Sort field direction => sort_rows (comes_first field direction) rows
  | Skip n => skipn n rows
  | Limit n => firstn n rows
  end.

(** [collection.aggregate(pipeline)] *)
Definition run_pipeline (p : pipeline) (docs : list document) : list document :=
  fold_left (fun rows s => run_stage s rows) p docs.

(** A projection [{f1: 1, ..., '_id': 0}] keeps the listed fields. *)
Definition project (fields : list string) (d : document) : document :=
  filter (fun kv => existsb (String.eqb (fst kv)) fields) d.

Definition limit_rows (limit : option nat) (rows : list document) :=
  match limit with
  | Some n => firstn n rows
  | None => rows
  end.

End Mongo.

(** pymongo.DESCENDING *)
Definition DESCENDING : Z := -1.

(** What [cursor.to_list] yields: the rows of a query, in order. *)
Definition cursor := list document.

(** The JSON envelope of the catalogue API, by the two keys the source
    reads with [page.get]. *)
Record page := mkPage {
  page_count : option Z;
  page_results : option (list document)
}.

(** What a GET on a URL leads to: [session.get] raises, [response.json()]
    raises, or the envelope is decoded. *)
Inductive http_reply :=
| GetRaises (e : exc)
| JsonRaises (e : exc)
| Responds (p : page).

(** [template.format(arg)] for a template with one [{}]. *)
Fixpoint format1 (template arg : string) : string :=
  match template with
  | String "{" (String "}" rest) => String.append arg rest
  | String c rest => String c (format1 rest arg)
  | EmptyString => EmptyString
  end.

Section Program.

(** The remote catalogue, and the store's case-insensitive regular
    expression search ([regex_search pattern subject]).  The search is
    given for every string; a pattern that is no regular expression, on
    which the store raises instead of answering, is not told apart. *)
Variable net : string -> http_reply.
Variable regex_search : string -> string -> bool.

(* ---------------------------------------------------------------- *)
(** *** db_manager.py: [DBManager] *)
(* ---------------------------------------------------------------- *)

Definition estimated_document_count : M Z :=
  emit EstimatedDocumentCount ;;;
  docs <- get_collection ;;
  ret (Z.of_nat (List.length docs)).

Definition is_empty_collection : M bool :=
  num_docs <- estimated_document_count ;;
  ret (num_docs =? 0).

Definition full_name : string := "test_database.test_collection".

Definition drop_collection : M string :=
  let col_name := full_name in
  emit DropCollection ;;;
  set_collection [] ;;;
  ret col_name.

(** [collection.insert_many(documents)]: pymongo refuses anything but a
    non-empty list with a [TypeError] before it contacts the server;
    otherwise the batch is stored.  Returns [len(result.inserted_ids)].
    The documents are taken to bring no [_id] of their own: the store's
    refusal of an [_id] it already holds is not modelled. *)
Definition insert_many (documents : option (list document)) : M nat :=
  emit (InsertMany documents) ;;;
  match documents with
  | None | Some [] =>
      raise (mkExc TypeError "documents must be a non-empty list")
  | Some batch =>
      docs <- get_collection ;;
      set_collection (docs ++ batch) ;;;
      ret (List.length batch)
  end.

Definition insert_docs (documents : option (list document)) : M unit :=
  inserted <- insert_many documents ;;
  logger_info (cat ["Добавлено "; Py.str_of_int (Z.of_nat inserted);
                    " документов"]).

(** [{instance: {'$regex': name, '$options': 'i'}}] *)
Definition regex_filter (instance name : string) (d : document) : bool :=
  match get_field instance d with
  | Some (BStr s) => regex_search name s
  | _ => false
  end.

Definition count_documents (docs : list document) (instance name : string) : Z :=
  Z.of_nat (List.length (filter (regex_filter instance name) docs)).

Definition count_docs (instance name : string) : M Z :=
  emit (CountDocuments instance name) ;;;
  docs <- get_collection ;;
  ret (count_documents docs instance name).

(** [collection.find(filter, projection).sort(field, DESCENDING)], with an
    optional [.limit(n)]. *)
Definition find_sorted (docs : list document)
           (flt : option (string * string)) (projection : list string)
           (sort_field : string) (limit : option nat) : cursor :=
  let matching :=
    match flt with
    | None => docs
    | Some (instance, name) => filter (regex_filter instance name) docs
    end in
  map (Mongo.project projection)
      (Mongo.limit_rows limit
         (Mongo.sort_rows (Mongo.comes_first sort_field DESCENDING) matching)).

Definition instance_stats (docs : list document) (instance name : string) : cursor :=
  find_sorted docs (Some (instance, name))
              ["name"; "uri"; "main_actor.cover_name"; "reviews_count"]
              "reviews_count" None.

Definition find_instance_stats (instance name : string) : M cursor :=
  emit (Find (Some (instance, name)) "reviews_count") ;;;
  docs <- get_collection ;;
  ret (instance_stats docs instance name).

Definition find_books_total : M Z := estimated_document_count.

Definition find_highest_rated_book : M cursor :=
  emit (Find None "global_rating") ;;;
  docs <- get_collection ;;
  ret (find_sorted docs None
         ["name"; "uri"; "main_author.cover_name"; "main_actor.cover_name";
          "global_rating"]
         "global_rating" (Some 1%nat)).

Definition find_most_reviewed_book : M cursor :=
  emit (Find None "reviews_count") ;;;
  docs <- get_collection ;;
  ret (find_sorted docs None
         ["name"; "uri"; "main_author.cover_name"; "main_actor.cover_name";
          "reviews_count"]
         "reviews_count" (Some 1%nat)).

Definition aggregate (p : pipeline) : M cursor :=
  emit (Aggregate p) ;;;
  docs <- get_collection ;;
  ret (Mongo.run_pipeline p docs).

Definition most_prolific_author_pipeline : pipeline :=
  [ Group "main_author.cover_name"
          [("num_books", AccSum1); ("uri", AccFirst "main_author.uri")];
    Sort "num_books" (-1);
    Skip 1;
    Limit 1 ].

Definition find_most_prolific_author : M cursor :=
  aggregate most_prolific_author_pipeline.

Definition most_prolific_narrator_pipeline : pipeline :=
  [ Group "main_actor.cover_name"
          [("books_narrated", AccSum1); ("uri", AccFirst "main_actor.uri")];
    Sort "books_narrated" (-1);
    Skip 1;
    Limit 1 ].

Definition find_most_prolific_narrator : M cursor :=
  aggregate most_prolific_narrator_pipeline.

Definition highest_AVG_rated_author_pipeline : pipeline :=
  [ Group "main_author.cover_name"
          [("sum_books", AccSum1); ("avg_rating", AccAvg "global_rating");
           ("uri", AccFirst "main_author.uri")];
    MatchGte "sum_books" 5;
    Sort "avg_rating" (-1);
    Limit 1 ].

Definition find_highest_AVG_rated_author : M cursor :=
  aggregate highest_AVG_rated_author_pipeline.

Definition highest_AVG_reviewed_author_pipeline : pipeline :=
  [ Group "main_author.cover_name"
          [("sum_books", AccSum1); ("avg_reviews", AccAvg "reviews_count");
           ("uri", AccFirst "main_author.uri")];
    MatchGte "sum_books" 5;
    Sort "avg_reviews" (-1);
    Limit 1 ].

Definition find_highest_AVG_reviewed_author : M cursor :=
  aggregate highest_AVG_reviewed_author_pipeline.

Definition panel_coroutine_queries : list (M cursor) :=
  [ find_highest_rated_book;
    find_most_reviewed_book;
    find_most_prolific_author;
    find_most_prolific_narrator;
    find_highest_AVG_rated_author;
    find_highest_AVG_reviewed_author ].

Definition panel_numeric_queries : list (M Z) :=
  [ find_books_total ].

(** The two methods [get_instance_queryset] calls on the [db_manager] it
    is handed. *)
Record DBManagerLike := {
  dm_count_docs : string -> string -> M Z;
  dm_find_instance_stats : string -> string -> M cursor
}.

Definition db_manager : DBManagerLike :=
  {| dm_count_docs := count_docs;
     dm_find_instance_stats := find_instance_stats |}.

End Program.

(* ------------------------------------------------------------------ *)
(** *** fetcher.py: [Fetcher] *)
(* ------------------------------------------------------------------ *)

Section Fetcher.

Variable net : string -> http_reply.
(** [self.chunk_size] *)
Variable chunk_size : Z.

(** [url_template.format(limit, page)] *)
Definition url_template (limit page_number : Z) : string :=
  cat ["https://zvukislov.ru/api/audiobooks/?limit="; Py.str_of_int limit;
       "&page="; Py.str_of_int page_number].

Definition verification_url : string := url_template 1 1.

(** [async with session.get(url) as response: page = await response.json()] *)
Definition get_json (url : string) : M page :=
  emit (HttpGet url) ;;;
  match net url with
  | GetRaises e => raise e
  | JsonRaises e => raise e
  | Responds p => ret p
  end.

Definition fetch_and_insert (url : string) : M unit :=
  try_except
    (page <- get_json url ;;
     let content := page_results page in
     insert_docs content ;;;
     logger_info (cat ["Обработан URL `"; url; "`"]))
    (fun e =>
       if isinstance e InvalidURL then
         logger_error
           (cat ["Не удалось получить данные по URL `"; url; "`: "; exc_msg e])
       else if isinstance e ClientError then
         logger_error
           (cat ["При обработке URL `"; url;
                 "` возникла проблема с Интернет-соединением: "; exc_msg e; " "])
       else
         logger_error
           (cat ["Непредвиденная ошибка при обработке URL `"; url; "`: ";
                 exc_msg e])).

(** [count / self.chunk_size] raises [TypeError] when the envelope has no
    [count], and [ZeroDivisionError] for a zero chunk size. *)
Definition get_total_pages : M Z :=
  try_except
    (page <- get_json verification_url ;;
     match page_count page with
     | None =>
         raise (mkExc TypeError
                  "unsupported operand type(s) for /: 'NoneType' and 'int'")
     | Some count =>
         if chunk_size =? 0
         then raise (mkExc ZeroDivisionError "division by zero")
         else ret (Py.round_div count chunk_size + 1)
     end)
    (fun e =>
       logger_error
         (cat ["Верификация проверочного url закончилась ошибкой: "; exc_msg e;
               "Структура ответа API могла быть изменена."]) ;;;
       sys_exit (ExitCode 1)).

(** A task is identified by the URL its [fetch_and_insert] is bound to. *)
Fixpoint spawn_tasks (page_numbers : list Z) (task_list : list string)
  : M (list string) :=
  match page_numbers with
  | [] => ret task_list
  | page_number :: rest =>
      let url := url_template chunk_size page_number in
      emit (CreateTask url) ;;;
      spawn_tasks rest (task_list ++ [url])
  end.

Definition create_tasks : M (list string) :=
  count <- get_total_pages ;;
  spawn_tasks (Py.range 1 count) [].

(** [asyncio.gather] over the task list, the tasks taken in creation
    order.  The tasks of the source complete in any order; that order shows
    in the order of the stored documents and of the trace only. *)
Definition execute_tasks : M unit :=
  task_list <- create_tasks ;;
  for_each task_list fetch_and_insert.

End Fetcher.

(* ------------------------------------------------------------------ *)
(** *** table.py *)
(* ------------------------------------------------------------------ *)

(** The first component of what [get_instance_queryset] returns: a cursor,
    or the text of the nothing-found message. *)
Inductive queryset :=
| QCursor (rows : cursor)
| QMessage (text : string).

Definition TOO_LONG_QUERY_MSG : string :=
  "Слишком длинный запрос. Попробуйте сократить запрос или выделить ключевые слова.".

Definition OPTIONAL_PATRONYMIC : string := "[а-яa-z]* ?".

Definition NOTHING_FOUND_MSG : string := "По запросу {} ничего не найдено!".

(** The [for name_combination in ...] loop. *)
Fixpoint try_combinations (dbm : DBManagerLike) (instance query_string : string)
         (combinations : list (list string)) : M (queryset * string) :=
  match combinations with
  | [] => ret (QMessage NOTHING_FOUND_MSG, query_string)
  | name_combination :: rest =>
      num_docs <- dm_count_docs dbm instance (Py.join " " name_combination) ;;
      if 0 <? num_docs then
        async_queryset <-
          dm_find_instance_stats dbm instance (Py.join " " name_combination) ;;
        ret (QCursor async_queryset, query_string)
      else try_combinations dbm instance query_string rest
  end.

Definition get_instance_queryset (dbm : DBManagerLike) (instance : string)
           (args : list string) : M (queryset * string) :=
  let query_string := Py.join " " args in
  let len_args := List.length args in
  if (9 <? len_args)%nat then sys_exit (ExitMessage TOO_LONG_QUERY_MSG)
  else
    let args :=
      if String.eqb instance "author" && (len_args =? 2)%nat
      then args ++ [OPTIONAL_PATRONYMIC]
      else args in
    try_combinations dbm instance query_string (Py.permutations args len_args).

Definition display_empty_qs_message (error query_string : string) : M unit :=
  let formatted_qstring := cat ["[bold green]`"; query_string; "`[/bold green]"] in
  let formatted_error := format1 error formatted_qstring in
  console_print (cat ["[bold red]Внимание! [/bold red]"; formatted_error]).

(** The table is kept as its rows (at most ten); the cell rendering of
    [rich] is left out, and with it the reading of the four fields of each
    row, which fails on a row that lacks one. *)
Definition create_rich_table (async_queryset : queryset) (header : string)
  : M (string * list document) :=
  match async_queryset with
  | QMessage error =>
      display_empty_qs_message error header ;;;
      sys_exit ExitNone
  | QCursor rows => ret (header, firstn 10 rows)
  end.

(* ------------------------------------------------------------------ *)
(** *** info_panel.py: [PanelQueryHandler] *)
(* ------------------------------------------------------------------ *)

(** An attribute of a [PanelQueryHandler] instance: a data attribute or a
    bound method, by the argument it takes. *)
Inductive attribute :=
| AttrData
| AttrRun (body : M unit)
| AttrOnNumeric (body : M Z -> M unit)
| AttrOnCoroutine (body : M cursor -> M unit).

Fixpoint lookup_attr (name : string) (dict : list (string * attribute))
  : option attribute :=
  match dict with
  | [] => None
  | (k, a) :: rest => if String.eqb k name then Some a else lookup_attr name rest
  end.

(** [self.<name>] *)
Definition getattr (dict : list (string * attribute)) (name : string) : M attribute :=
  match lookup_attr name dict with
  | Some a => ret a
  | None =>
      raise (mkExc AttributeError
               (cat ["'PanelQueryHandler' object has no attribute '"; name; "'"]))
  end.

Definition not_callable {A} : M A :=
  raise (mkExc TypeError "object is not callable with these arguments").

Definition call_run (a : attribute) : M unit :=
  match a with AttrRun body => body | _ => not_callable end.

Definition call_on_numeric (a : attribute) (query : M Z) : M unit :=
  match a with AttrOnNumeric body => body query | _ => not_callable end.

Definition call_on_coroutine (a : attribute) (query : M cursor) : M unit :=
  match a with AttrOnCoroutine body => body query | _ => not_callable end.

Section PanelQueryHandler.

Variable regex_search : string -> string -> bool.

Definition _await_numeric_query (query : M Z) : M unit :=
  result <- query ;;
  results_append (RInt result).

Definition _await_coroutine_query (query : M cursor) : M unit :=
  cor <- query ;;
  for_each (firstn 1 cor) (fun data => results_append (RRow data)).

(** The attributes that call no other method of [self]. *)
Definition base_attributes : list (string * attribute) :=
  [ ("db_manager", AttrData);
    ("results", AttrData);
    ("_await_numeric_query", AttrOnNumeric _await_numeric_query);
    ("_await_coroutine_query", AttrOnCoroutine _await_coroutine_query) ].

Definition _await_all_numeric_queries : M unit :=
  for_each panel_numeric_queries
           (fun query =>
              method <- getattr base_attributes "_await_numeric_query" ;;
              call_on_numeric method query).

Definition _await_all_coroutine_queries : M unit :=
  for_each (panel_coroutine_queries regex_search)
           (fun query =>
              method <- getattr base_attributes "await_coroutine_query" ;;
              call_on_coroutine method query).

Definition loop_attributes : list (string * attribute) :=
  base_attributes ++
  [ ("_await_all_numeric_queries", AttrRun _await_all_numeric_queries);
    ("_await_all_coroutine_queries", AttrRun _await_all_coroutine_queries) ].

Definition await_all_queries : M unit :=
  (method <- getattr loop_attributes "_await_all_numeric_queries" ;;
   call_run method) ;;;
  (method <- getattr loop_attributes "_await_all_coroutine_queries" ;;
   call_run method).

(** Everything [getattr] can find on an instance. *)
Definition PanelQueryHandler_attributes : list (string * attribute) :=
  loop_attributes ++ [ ("await_all_queries", AttrRun await_all_queries) ].

(** [PanelQueryHandler(db_manager)]: [self.results = []]. *)
Definition PanelQueryHandler_init : M unit :=
  fun w => (Returned tt, mkWorld (collection w) [] (trace w)).

End PanelQueryHandler.

(* ------------------------------------------------------------------ *)
(** *** __main__.py *)
(* ------------------------------------------------------------------ *)

(** The namespace [read_console_args] returns. *)
Record console_args := mkArgs {
  load : bool;
  drop_collection_flag : bool;
  stats : bool;
  author : option (list string);
  book : option (list string);
  test : bool
}.

Definition NON_EMPTY_COL_ERROR_MSG : string :=
  "[red bold]Внимание![/red bold]
Вы пытаетесь загрузить данные в непустую коллекцию.
Для повторной загрузки данных воспользуйтесь
опцией [green bold]`--drop_collection`[/green bold] и затем снова [green bold]`--load`[/green bold]".

Definition DROP_COL_SUCCESS_MSG : string :=
  "Все документы коллекции [green bold]`{}`[/green bold] успешно удалены".

(** [INSTANCE_DB_MAPPING.get(mode, "author")] *)
Definition INSTANCE_DB_MAPPING_get (mode : string) : string :=
  if String.eqb mode "author" then "main_author.cover_name"
  else if String.eqb mode "book" then "name"
  else "author".

(** Truthiness of an optional word list. *)
Definition truthy (a : option (list string)) : bool :=
  match a with
  | Some (_ :: _) => true
  | _ => false
  end.

Section Main.

Variable net : string -> http_reply.
Variable regex_search : string -> string -> bool.

(** [fetcher = Fetcher(db_manager, 1000)] *)
Definition fetcher_chunk_size : Z := 1000.

(** [get_db] only binds the client; the elapsed time of the load message
    and the rendering of panels and tables are left out of the printed
    texts. *)
Definition main (args : console_args) : M unit :=
  if load args then
    is_empty <- is_empty_collection ;;
    (if negb is_empty
     then console_log NON_EMPTY_COL_ERROR_MSG ;;; sys_exit (ExitCode 1)
     else ret tt) ;;;
    execute_tasks net fetcher_chunk_size ;;;
    console_log "Время заполнения базы данных в секундах: "
  else if drop_collection_flag args then
    col_name <- drop_collection ;;
    console_log (format1 DROP_COL_SUCCESS_MSG col_name)
  else if stats args then
    PanelQueryHandler_init ;;;
    await_all_queries regex_search ;;;
    console_print "[purple bold]Немного статистики об аудиокнигах[/purple bold]" ;;;
    console_print "Panel(stats_panels)"
  else if truthy (author args) || truthy (book args) then
    let instance_args :=
      if truthy (author args) then author args else book args in
    let mode := if truthy (author args) then "author" else "book" in
    let instance := INSTANCE_DB_MAPPING_get mode in
    qh <- get_instance_queryset (db_manager regex_search) instance
                                (match instance_args with
                                 | Some words => words
                                 | None => []
                                 end) ;;
    table <- create_rich_table (fst qh) (snd qh) ;;
    console_print (cat ["Table("; fst table; ")"])
  else if test args then
    console_log "Тестовые функции не реализованы."
  else ret tt.

End Main.

(* ================================================================== *)
(** * Properties *)
(* ================================================================== *)

(* ------------------------------------------------------------------ *)
(** ** Python built-ins *)
(* ------------------------------------------------------------------ *)

(** The examples of the [itertools] documentation. *)
Example permutations_ABCD_2 :
  map (Py.join "") (Py.permutations ["A"; "B"; "C"; "D"] 2)
  = ["AB"; "AC"; "AD"; "BA"; "BC"; "BD"; "CA"; "CB"; "CD"; "DA"; "DB"; "DC"].
Proof. reflexivity. Qed.

Example permutations_range_3 :
  Py.permutations [0; 1; 2] 3
  = [[0; 1; 2]; [0; 2; 1]; [1; 0; 2]; [1; 2; 0]; [2; 0; 1]; [2; 1; 0]].
Proof. reflexivity. Qed.

Example round_div_ties :
  map (fun n => Py.round_div n 2) [1; 3; 5; 7; -1; -3] = [0; 2; 2; 4; 0; -2].
Proof. reflexivity. Qed.

Example range_1_3 : Py.range 1 3 = [1; 2].
Proof. reflexivity. Qed.

Example str_of_int_1000 : Py.str_of_int 1000 = "1000".
Proof. reflexivity. Qed.

(** Unfolds the plumbing of the coroutine monad. *)
Ltac run_coro :=
  unfold bind, try_except, emit, ret, raise, sys_exit, get_collection,
    set_collection, results_append, logger_info, logger_error, console_log,
    console_print; simpl.

Lemma of_nat_pos_eqb (n : nat) : 0 < Z.of_nat n -> (Z.of_nat n =? 0) = false.
Proof. intros H. apply Z.eqb_neq. lia. Qed.

(** The world after some more calls were traced. *)
Definition traced (w : world) (events : list event) : world :=
  mkWorld (collection w) (results w) (trace w ++ events).

Lemma traced_app w evs1 evs2 :
  traced (traced w evs1) evs2 = traced w (evs1 ++ evs2).
Proof. unfold traced; simpl. now rewrite <- app_assoc. Qed.

(* ------------------------------------------------------------------ *)
(** ** Ingestion *)
(* ------------------------------------------------------------------ *)

(** A failed page request: [session.get] or [response.json()] raised [e]. *)
Inductive fetch_failure : http_reply -> exc -> Prop :=
| fetch_failure_get e : fetch_failure (GetRaises e) e
| fetch_failure_json e : fetch_failure (JsonRaises e) e.

Lemma get_json_failure net url w e :
  fetch_failure (net url) e ->
  get_json net url w = (Raised e, traced w [HttpGet url]).
Proof.
  intros H. unfold get_json. run_coro.
  inversion H as [e' Heq | e' Heq]; subst; reflexivity.
Qed.

Lemma get_json_responds net url w p :
  net url = Responds p ->
  get_json net url w = (Returned p, traced w [HttpGet url]).
Proof. intros H. unfold get_json. run_coro. now rewrite H. Qed.

(** The line [fetch_and_insert] logs for an exception, by its three
    [except] clauses. *)
Definition fetch_error_line (url : string) (e : exc) : string :=
  match exc_cls e with
  | InvalidURL =>
      cat ["Не удалось получить данные по URL `"; url; "`: "; exc_msg e]
  | ClientError =>
      cat ["При обработке URL `"; url;
           "` возникла проблема с Интернет-соединением: "; exc_msg e; " "]
  | _ =>
      cat ["Непредвиденная ошибка при обработке URL `"; url; "`: "; exc_msg e]
  end.

(** C1. With [--load] and a collection whose document count is positive,
    [main] logs the non-empty-collection message and exits with status 1;
    the only store call made is the count, so [insert_many] is never
    called and the collection is left as it was. *)
Theorem C1_load_refused_on_nonempty_collection :
  forall net regex_search args w,
    load args = true ->
    0 < Z.of_nat (List.length (collection w)) ->
    let refusal := [EstimatedDocumentCount; ConsoleLog NON_EMPTY_COL_ERROR_MSG] in
    main net regex_search args w = (SystemExit (ExitCode 1), traced w refusal)
    /\ exit_status (ExitCode 1) <> 0
    /\ collection (traced w refusal) = collection w
    /\ forall documents, ~ In (InsertMany documents) refusal.
Proof.
  intros net rs args w Hload Hcount refusal.
  repeat split.
  - unfold main. rewrite Hload.
    unfold is_empty_collection, estimated_document_count. run_coro.
    rewrite (of_nat_pos_eqb _ Hcount). simpl.
    unfold traced, refusal. now rewrite <- app_assoc.
  - discriminate.
  - intros documents [H | [H | []]]; discriminate.
Qed.

Lemma C1_load_refused_witness :
  let net := fun _ : string => GetRaises (mkExc ClientError "offline") in
  let rx := fun _ _ : string => false in
  let args := mkArgs true false false None None false in
  let w := mkWorld [[("name", BStr "Анна Каренина")]] [] [] in
  main net rx args w
  = (SystemExit (ExitCode 1),
     traced w [EstimatedDocumentCount; ConsoleLog NON_EMPTY_COL_ERROR_MSG]).
Proof.
  cbv zeta.
  apply (C1_load_refused_on_nonempty_collection
           (fun _ => GetRaises (mkExc ClientError "offline"))
           (fun _ _ => false)
           (mkArgs true false false None None false)
           (mkWorld [[("name", BStr "Анна Каренина")]] [] [])).
  - reflexivity.
  - simpl. lia.
Defined.

(** On an empty collection the same entry point goes on to the fetcher. *)
Lemma main_load_on_empty_collection net regex_search args w :
  load args = true ->
  collection w = [] ->
  main net regex_search args w
  = bind (execute_tasks net fetcher_chunk_size)
         (fun _ => console_log "Время заполнения базы данных в секундах: ")
         (traced w [EstimatedDocumentCount]).
Proof.
  intros Hload Hempty. unfold main. rewrite Hload.
  unfold is_empty_collection, estimated_document_count. run_coro.
  rewrite Hempty. simpl. unfold traced. rewrite Hempty. reflexivity.
Qed.

(** C2. When the verification response carries [count = 2500] and the chunk
    size is 1000, [round(2500 / 1000)] is 2 (the tie goes to the even
    neighbour), [get_total_pages] returns 3, and [create_tasks] builds one
    task per page number of [range(1, 3)]: exactly two tasks, for pages 1
    and 2. *)
Theorem C2_count_2500_chunk_1000_two_tasks :
  forall net w other,
    net verification_url = Responds (mkPage (Some 2500) other) ->
    Py.round_div 2500 1000 = 2
    /\ fst (get_total_pages net 1000 w) = Returned 3
    /\ Py.range 1 3 = [1; 2]
    /\ create_tasks net 1000 w
       = (Returned ["https://zvukislov.ru/api/audiobooks/?limit=1000&page=1";
                    "https://zvukislov.ru/api/audiobooks/?limit=1000&page=2"],
          traced w
            [HttpGet verification_url;
             CreateTask "https://zvukislov.ru/api/audiobooks/?limit=1000&page=1";
             CreateTask "https://zvukislov.ru/api/audiobooks/?limit=1000&page=2"]).
Proof.
  intros net w other Hnet.
  assert (Hpages : get_total_pages net 1000 w
                   = (Returned 3, traced w [HttpGet verification_url])).
  { unfold get_total_pages, try_except, bind.
    rewrite (get_json_responds _ _ _ _ Hnet). reflexivity. }
  repeat split.
  - now rewrite Hpages.
  - unfold create_tasks, bind. rewrite Hpages.
    change (Py.range 1 3) with [1; 2].
    unfold spawn_tasks. run_coro.
    unfold traced; simpl. now rewrite <- !app_assoc.
Qed.

Lemma C2_two_tasks_witness :
  let net := fun _ : string => Responds (mkPage (Some 2500) (Some [])) in
  net verification_url = Responds (mkPage (Some 2500) (Some []))
  /\ fst (get_total_pages net 1000 (mkWorld [] [] [])) = Returned 3.
Proof.
  cbv zeta. split.
  - reflexivity.
  - apply (C2_count_2500_chunk_1000_two_tasks
             (fun _ => Responds (mkPage (Some 2500) (Some [])))
             (mkWorld [] [] []) (Some [])).
    reflexivity.
Defined.

(** C3. When the request of a page task fails -- [session.get] or
    [response.json()] raises any exception: an [InvalidURL], another
    [ClientError], or anything else -- [fetch_and_insert] returns normally
    (nothing reaches the coordinator), the collection is unchanged (zero
    items contributed), and the calls it made are the one GET (no retry)
    followed by one error line, chosen by the kind of the exception. *)
Theorem C3_fetch_failure_is_absorbed :
  forall net url w e,
    fetch_failure (net url) e ->
    fetch_and_insert net url w
    = (Returned tt, traced w [HttpGet url; LoggerError (fetch_error_line url e)]).
Proof.
  intros net url w e Hfail.
  unfold fetch_and_insert, try_except, bind.
  rewrite (get_json_failure _ _ _ _ Hfail).
  unfold fetch_error_line, isinstance.
  destruct e as [cls msg]; destruct cls; simpl;
    unfold logger_error, emit, traced; simpl;
    now rewrite <- app_assoc.
Qed.

Lemma C3_fetch_failure_witness :
  let net := fun _ : string => GetRaises (mkExc InvalidURL "bad url") in
  fetch_and_insert net "htp:/x" (mkWorld [] [] [])
  = (Returned tt,
     mkWorld [] []
       [HttpGet "htp:/x";
        LoggerError "Не удалось получить данные по URL `htp:/x`: bad url"]).
Proof.
  cbv zeta.
  apply (C3_fetch_failure_is_absorbed
           (fun _ => GetRaises (mkExc InvalidURL "bad url"))
           "htp:/x" (mkWorld [] [] []) (mkExc InvalidURL "bad url")).
  constructor.
Defined.

(** Whatever the reply, a page task never raises and never exits: a decoded
    envelope without usable [results] ends in the last [except] clause
    too. *)
Lemma fetch_and_insert_always_returns net url w :
  fst (fetch_and_insert net url w) = Returned tt.
Proof.
  unfold fetch_and_insert, try_except, bind, get_json, insert_docs, insert_many.
  run_coro.
  destruct (net url) as [[cls msg] | [cls msg] | [count [[|d batch]|]]];
    simpl; try destruct cls; reflexivity.
Qed.

(** X8. An envelope whose [results] is missing or empty stores nothing: pymongo
    raises before the store is reached, and the task logs the error. *)
Lemma fetch_and_insert_unusable_results net url w count content :
  net url = Responds (mkPage count content) ->
  content = None \/ content = Some [] ->
  fetch_and_insert net url w
  = (Returned tt,
     traced w [HttpGet url; InsertMany content;
               LoggerError
                 (fetch_error_line url
                    (mkExc TypeError "documents must be a non-empty list"))]).
Proof.
  intros Hnet Hcontent.
  unfold fetch_and_insert, try_except, bind.
  rewrite (get_json_responds _ _ _ _ Hnet).
  unfold insert_docs, insert_many, bind, emit, raise, traced, logger_error.
  destruct Hcontent as [-> | ->]; simpl; unfold emit; simpl;
    rewrite <- !app_assoc; reflexivity.
Qed.

(** On a decoded envelope with a non-empty [results] list the page is stored. *)
Lemma fetch_and_insert_stores_page net url w count d batch :
  net url = Responds (mkPage count (Some (d :: batch))) ->
  collection (snd (fetch_and_insert net url w)) = collection w ++ d :: batch.
Proof.
  intros H.
  unfold fetch_and_insert, try_except, bind, get_json, insert_docs, insert_many.
  run_coro. rewrite H. reflexivity.
Qed.

(** The line [get_total_pages] logs before it exits. *)
Definition verification_error_line (e : exc) : string :=
  cat ["Верификация проверочного url закончилась ошибкой: "; exc_msg e;
       "Структура ответа API могла быть изменена."].

Lemma get_total_pages_failure net chunk_size w e :
  fetch_failure (net verification_url) e ->
  get_total_pages net chunk_size w
  = (SystemExit (ExitCode 1),
     traced w [HttpGet verification_url;
               LoggerError (verification_error_line e)]).
Proof.
  intros Hfail. unfold get_total_pages, try_except, bind.
  rewrite (get_json_failure _ _ _ _ Hfail).
  unfold logger_error, emit, sys_exit, traced, verification_error_line; simpl.
  now rewrite <- app_assoc.
Qed.

Lemma create_tasks_failure net chunk_size w e :
  fetch_failure (net verification_url) e ->
  create_tasks net chunk_size w
  = (SystemExit (ExitCode 1),
     traced w [HttpGet verification_url;
               LoggerError (verification_error_line e)]).
Proof.
  intros Hfail. unfold create_tasks, bind.
  now rewrite (get_total_pages_failure _ _ _ _ Hfail).
Qed.

Lemma execute_tasks_failure net chunk_size w e :
  fetch_failure (net verification_url) e ->
  execute_tasks net chunk_size w
  = (SystemExit (ExitCode 1),
     traced w [HttpGet verification_url;
               LoggerError (verification_error_line e)]).
Proof.
  intros Hfail. unfold execute_tasks, bind.
  now rewrite (create_tasks_failure _ _ _ _ Hfail).
Qed.

(** C4. When the verification request fails with any exception,
    [get_total_pages] logs the error and calls [sys.exit(1)]; the exit
    passes through [create_tasks] and [execute_tasks], so the run ends
    with a non-zero status after the single verification GET and before
    any task is created or any page is stored. *)
Theorem C4_verification_failure_aborts_before_tasks :
  forall net chunk_size w e,
    fetch_failure (net verification_url) e ->
    let events :=
      [HttpGet verification_url; LoggerError (verification_error_line e)] in
    create_tasks net chunk_size w = (SystemExit (ExitCode 1), traced w events)
    /\ execute_tasks net chunk_size w = (SystemExit (ExitCode 1), traced w events)
    /\ exit_status (ExitCode 1) <> 0
    /\ (forall url, ~ In (CreateTask url) events)
    /\ (forall documents, ~ In (InsertMany documents) events).
Proof.
  intros net chunk_size w e Hfail events.
  repeat split.
  - now apply create_tasks_failure.
  - now apply execute_tasks_failure.
  - discriminate.
  - intros url [H | [H | []]]; discriminate.
  - intros documents [H | [H | []]]; discriminate.
Qed.

Lemma C4_verification_failure_witness :
  let net := fun _ : string => JsonRaises (mkExc OtherException "not JSON") in
  execute_tasks net 1000 (mkWorld [] [] [])
  = (SystemExit (ExitCode 1),
     mkWorld [] []
       [HttpGet "https://zvukislov.ru/api/audiobooks/?limit=1&page=1";
        LoggerError
          "Верификация проверочного url закончилась ошибкой: not JSONСтруктура ответа API могла быть изменена."]).
Proof.
  cbv zeta.
  apply (C4_verification_failure_aborts_before_tasks
           (fun _ => JsonRaises (mkExc OtherException "not JSON"))
           1000 (mkWorld [] [] []) (mkExc OtherException "not JSON")).
  constructor.
Defined.

(** The other two ways the verification step fails take the same exit: an
    envelope without [count], and a zero chunk size. *)
Lemma get_total_pages_no_count net chunk_size w other :
  net verification_url = Responds (mkPage None other) ->
  fst (get_total_pages net chunk_size w) = SystemExit (ExitCode 1).
Proof.
  intros H. unfold get_total_pages, try_except, bind.
  now rewrite (get_json_responds _ _ _ _ H).
Qed.

Lemma get_total_pages_zero_chunk net w p :
  net verification_url = Responds p ->
  fst (get_total_pages net 0 w) = SystemExit (ExitCode 1).
Proof.
  intros H. unfold get_total_pages, try_except, bind.
  rewrite (get_json_responds _ _ _ _ H).
  destruct p as [[count|] other]; reflexivity.
Qed.

(** X22. From [main]: [--load] on an empty collection whose verification request
    fails exits with status 1 without storing anything. *)
Lemma main_load_verification_failure net regex_search args w e :
  load args = true ->
  collection w = [] ->
  fetch_failure (net verification_url) e ->
  main net regex_search args w
  = (SystemExit (ExitCode 1),
     traced w [EstimatedDocumentCount; HttpGet verification_url;
               LoggerError (verification_error_line e)]).
Proof.
  intros Hload Hempty Hfail.
  rewrite (main_load_on_empty_collection _ _ _ _ Hload Hempty).
  unfold bind.
  rewrite (execute_tasks_failure _ _ _ _ Hfail). now rewrite traced_app.
Qed.

(* ------------------------------------------------------------------ *)
(** ** The store: sorting *)
(* ------------------------------------------------------------------ *)

Section SortRows.

Variable ahead : document -> document -> bool.

(** [may_precede a b]: nothing forces [b] ahead of [a]. *)
Definition may_precede (a b : document) : Prop := ahead b a = false.

Lemma insert_row_perm x l :
  Permutation (Mongo.insert_row ahead x l) (x :: l).
Proof.
  induction l as [|y l IH]; simpl.
  - apply Permutation_refl.
  - destruct (ahead y x).
    + eapply perm_trans; [apply perm_skip, IH | apply perm_swap].
    + apply Permutation_refl.
Qed.

Lemma sort_rows_perm l : Permutation (Mongo.sort_rows ahead l) l.
Proof.
  induction l as [|x l IH]; simpl.
  - constructor.
  - eapply perm_trans; [apply insert_row_perm | now apply perm_skip].
Qed.

(** The rows whose sort keys the order is known to be total on. *)
Variable comparable : document -> Prop.
Hypothesis ahead_asym :
  forall a b, comparable a -> comparable b -> ahead a b = true -> ahead b a = false.
Hypothesis may_precede_trans :
  forall a b c, comparable a -> comparable b -> comparable c ->
                may_precede a b -> may_precede b c -> may_precede a c.

Lemma insert_row_sorted x l :
  comparable x -> Forall comparable l ->
  StronglySorted may_precede l ->
  StronglySorted may_precede (Mongo.insert_row ahead x l).
Proof.
  intros Hx Hl Hs. induction Hs as [|y l Hs IH Hy]; simpl.
  - constructor; constructor.
  - inversion Hl as [|? ? Hcy Hcl]; subst.
    destruct (ahead y x) eqn:Hyx.
    + constructor; [now apply IH|].
      apply (Permutation_Forall (Permutation_sym (insert_row_perm x l))).
      constructor; [|exact Hy].
      now apply ahead_asym.
    + constructor; [now constructor|].
      constructor; [exact Hyx|].
      rewrite Forall_forall in *. intros z Hz.
      apply (may_precede_trans x y z); auto.
Qed.

Lemma sort_rows_sorted l :
  Forall comparable l -> StronglySorted may_precede (Mongo.sort_rows ahead l).
Proof.
  induction l as [|x l IH]; intros Hl; simpl.
  - constructor.
  - inversion Hl; subst.
    apply insert_row_sorted; auto.
    apply (Permutation_Forall (Permutation_sym (sort_rows_perm l))). assumption.
Qed.

End SortRows.

(** BSON order on numbers and null. *)
Definition not_a_string (v : bson) : Prop :=
  match v with BStr _ => False | _ => True end.

Lemma bson_ltb_irrefl v : not_a_string v -> Mongo.bson_ltb v v = false.
Proof.
  destruct v as [|q|s]; simpl; intros H; try easy.
  apply negb_false_iff, Qle_bool_iff, Qle_refl.
Qed.

Lemma bson_ltb_asym a b :
  not_a_string a -> not_a_string b ->
  Mongo.bson_ltb a b = true -> Mongo.bson_ltb b a = false.
Proof.
  destruct a as [|p|s], b as [|q|t]; simpl; intros Ha Hb H; try easy.
  apply negb_true_iff in H. apply negb_false_iff, Qle_bool_iff.
  destruct (Qlt_le_dec p q) as [Hlt|Hle].
  - now apply Qlt_le_weak.
  - apply Qle_bool_iff in Hle. congruence.
Qed.

Lemma bson_not_ltb_trans a b c :
  not_a_string a -> not_a_string b -> not_a_string c ->
  Mongo.bson_ltb a b = false -> Mongo.bson_ltb b c = false ->
  Mongo.bson_ltb a c = false.
Proof.
  destruct a as [|p|s], b as [|q|t], c as [|r|u]; simpl;
    intros Ha Hb Hc H1 H2; try easy.
  apply negb_false_iff, Qle_bool_iff in H1, H2.
  apply negb_false_iff, Qle_bool_iff. eapply Qle_trans; eauto.
Qed.

(** Rows sorted on [field] in descending order, when the field holds no
    string: no row is followed by one with a greater key. *)
Lemma sort_desc_sorted field rows :
  Forall (fun d => not_a_string (field_or_null field d)) rows ->
  StronglySorted
    (fun a b => Mongo.bson_ltb (field_or_null field a) (field_or_null field b) = false)
    (Mongo.sort_rows (Mongo.comes_first field (-1)) rows).
Proof.
  intros Hrows.
  apply (sort_rows_sorted (Mongo.comes_first field (-1))
           (fun d => not_a_string (field_or_null field d))); auto.
  - intros a b Ha Hb. unfold Mongo.comes_first; simpl. now apply bson_ltb_asym.
  - intros a b c Ha Hb Hc. unfold may_precede, Mongo.comes_first; simpl.
    now apply bson_not_ltb_trans.
Qed.

(* ------------------------------------------------------------------ *)
(** ** The store: grouping *)
(* ------------------------------------------------------------------ *)

Lemma bson_eqb_refl v : Mongo.bson_eqb v v = true.
Proof.
  destruct v; simpl; auto using Qeq_bool_refl, String.eqb_refl.
Qed.

Lemma bson_eqb_sym a b : Mongo.bson_eqb a b = Mongo.bson_eqb b a.
Proof.
  destruct a as [|p|s], b as [|q|t]; simpl; auto.
  - destruct (Qeq_bool p q) eqn:H1, (Qeq_bool q p) eqn:H2; auto.
    + apply Qeq_bool_sym in H1; congruence.
    + apply Qeq_bool_sym in H2; congruence.
  - apply String.eqb_sym.
Qed.

Lemma bson_eqb_trans a b c :
  Mongo.bson_eqb a b = true -> Mongo.bson_eqb b c = true ->
  Mongo.bson_eqb a c = true.
Proof.
  destruct a as [|p|s], b as [|q|t], c as [|r|u]; simpl; try easy.
  - apply Qeq_bool_trans.
  - rewrite !String.eqb_eq. congruence.
Qed.

(** If [b] is not [a]'s key then no key equal to [a] is [b]'s. *)
Lemma bson_eqb_false_trans a b c :
  Mongo.bson_eqb a b = true -> Mongo.bson_eqb a c = false ->
  Mongo.bson_eqb b c = false.
Proof.
  intros Hab Hac. destruct (Mongo.bson_eqb b c) eqn:Hbc; auto.
  rewrite (bson_eqb_trans _ _ _ Hab Hbc) in Hac. discriminate.
Qed.

Section Grouping.

Variable id_path : string.

(** The documents of a collection that fall under the group key [k]. *)
Definition members_of (k : bson) (docs : list document) : list document :=
  filter (fun d => Mongo.bson_eqb k (field_or_null id_path d)) docs.

(** What a partition of [docs] by [id_path] is: no group twice, one group
    per key, each group holding exactly the documents with its key (at
    least one), and every document's key present. *)
Record partition_ok (docs : list document) (G : list (bson * list document))
  : Prop := {
  po_nodup : NoDup G;
  po_inj : forall g h, In g G -> In h G ->
                       Mongo.bson_eqb (fst g) (fst h) = true -> g = h;
  po_members : forall g, In g G ->
                         snd g = members_of (fst g) docs /\ snd g <> [];
  po_cover : forall d, In d docs ->
                       exists g, In g G /\
                                 Mongo.bson_eqb (fst g) (field_or_null id_path d) = true
}.

Lemma add_member_cases k d G :
  (Forall (fun g => Mongo.bson_eqb (fst g) k = false) G
   /\ Mongo.add_member k d G = G ++ [(k, [d])])
  \/ (exists G1 k' ms G2,
         G = G1 ++ (k', ms) :: G2
         /\ Mongo.bson_eqb k' k = true
         /\ Forall (fun g => Mongo.bson_eqb (fst g) k = false) G1
         /\ Mongo.add_member k d G = G1 ++ (k', ms ++ [d]) :: G2).
Proof.
  induction G as [|[k' ms] G IH]; simpl.
  - left. split; [constructor | reflexivity].
  - destruct (Mongo.bson_eqb k' k) eqn:Hk.
    + right. exists [], k', ms, G. repeat split; auto.
    + destruct IH as [[Hall Heq] | (G1 & k'' & ms' & G2 & HG & Hk'' & Hall & Heq)].
      * left. split; [constructor; auto | now rewrite Heq].
      * right. exists ((k', ms) :: G1), k'', ms', G2.
        repeat split; auto.
        -- simpl. now rewrite HG.
        -- simpl. now rewrite Heq.
Qed.

Lemma members_of_snoc k docs d :
  members_of k (docs ++ [d])
  = members_of k docs
    ++ (if Mongo.bson_eqb k (field_or_null id_path d) then [d] else []).
Proof. unfold members_of. rewrite filter_app. reflexivity. Qed.

Lemma members_of_none k docs :
  (forall d, In d docs -> Mongo.bson_eqb k (field_or_null id_path d) = false) ->
  members_of k docs = [].
Proof.
  induction docs as [|d docs IH]; intros H; simpl; auto.
  rewrite (H d (or_introl eq_refl)). apply IH. intros; apply H; now right.
Qed.

Lemma snoc_neq {A} (l : list A) (x : A) : l ++ [x] <> l.
Proof.
  intros H. apply (f_equal (@List.length A)) in H.
  rewrite length_app in H. simpl in H. lia.
Qed.

Lemma partition_ok_step docs G d :
  partition_ok docs G ->
  partition_ok (docs ++ [d]) (Mongo.add_member (field_or_null id_path d) d G).
Proof.
  intros [Hnd Hinj Hmem Hcov].
  set (k := field_or_null id_path d).
  destruct (add_member_cases k d G)
    as [[Hall Heq] | (G1 & k' & ms & G2 & HG & Hk' & Hall & Heq)];
    rewrite Heq; clear Heq.
  - (* a new group *)
    rewrite Forall_forall in Hall.
    assert (Hfresh : ~ In (k, [d]) G).
    { intros Hin. specialize (Hall _ Hin). simpl in Hall.
      now rewrite bson_eqb_refl in Hall. }
    constructor.
    + apply NoDup_app; [exact Hnd | repeat constructor; intros [] |].
      intros g Hg [<- | []]. contradiction.
    + intros g h Hg Hh Heq.
      apply in_app_or in Hg, Hh.
      destruct Hg as [Hg | [<- | []]], Hh as [Hh | [<- | []]]; auto.
      * simpl in Heq. rewrite (Hall _ Hg) in Heq. discriminate.
      * simpl in Heq. rewrite bson_eqb_sym, (Hall _ Hh) in Heq. discriminate.
    + intros g Hg. apply in_app_or in Hg. destruct Hg as [Hg | [<- | []]].
      * destruct (Hmem _ Hg) as [Hm Hne]. split; [|exact Hne].
        rewrite members_of_snoc. fold k. rewrite (Hall _ Hg), app_nil_r.
        exact Hm.
      * simpl. split; [|discriminate].
        rewrite members_of_snoc. fold k. rewrite bson_eqb_refl.
        rewrite members_of_none; [reflexivity|].
        intros d' Hd'. destruct (Hcov _ Hd') as (g & Hg & Hgd).
        destruct (Mongo.bson_eqb k (field_or_null id_path d')) eqn:Hkd; auto.
        rewrite bson_eqb_sym in Hkd.
        pose proof (bson_eqb_trans _ _ _ Hgd Hkd) as Ht.
        rewrite (Hall _ Hg) in Ht. discriminate.
    + intros d' Hd'. apply in_app_or in Hd'. destruct Hd' as [Hd' | [<- | []]].
      * destruct (Hcov _ Hd') as (g & Hg & Hgd).
        exists g. split; auto. apply in_or_app; now left.
      * exists (k, [d]). split; [apply in_or_app; right; now left|].
        apply bson_eqb_refl.
  - (* the document joins the group of its key *)
    subst G. rewrite Forall_forall in Hall.
    assert (Hnd' : NoDup (G1 ++ G2) /\ ~ In (k', ms) (G1 ++ G2)).
    { split; [eapply NoDup_remove_1 | eapply NoDup_remove_2]; eauto. }
    destruct Hnd' as [Hnd' Hout].
    assert (Hothers : forall g, In g (G1 ++ G2) ->
                                In g (G1 ++ (k', ms) :: G2)
                                /\ Mongo.bson_eqb (fst g) k' = false
                                /\ Mongo.bson_eqb (fst g) k = false).
    { intros g Hg.
      assert (Hin : In g (G1 ++ (k', ms) :: G2)).
      { apply in_app_or in Hg. apply in_or_app.
        destruct Hg; [now left | right; now right]. }
      assert (Hgk' : Mongo.bson_eqb (fst g) k' = false).
      { destruct (Mongo.bson_eqb (fst g) k') eqn:E; auto.
        assert (g = (k', ms)) by (apply Hinj; auto; apply in_elt).
        subst g. contradiction. }
      repeat split; auto.
      rewrite bson_eqb_sym. apply (bson_eqb_false_trans k' k (fst g) Hk').
      now rewrite bson_eqb_sym. }
    assert (Hsplit : forall g, In g (G1 ++ (k', ms ++ [d]) :: G2) ->
                               g = (k', ms ++ [d]) \/ In g (G1 ++ G2)).
    { intros g Hg. apply in_app_or in Hg.
      destruct Hg as [Hg | [<- | Hg]]; auto;
        right; apply in_or_app; auto. }
    destruct (Hmem (k', ms) (in_elt _ _ _)) as [Hms _]. simpl in Hms.
    constructor.
    + apply (Permutation_NoDup
               (l := (k', ms ++ [d]) :: G1 ++ G2));
        [apply Permutation_middle|].
      constructor; [|exact Hnd'].
      intros Hin. destruct (Hothers _ Hin) as (_ & Hfalse & _).
      simpl in Hfalse. now rewrite bson_eqb_refl in Hfalse.
    + intros g h Hg Hh Heq.
      destruct (Hsplit _ Hg) as [-> | Hg'], (Hsplit _ Hh) as [-> | Hh']; auto.
      * destruct (Hothers _ Hh') as (_ & Hfalse & _). simpl in Heq.
        rewrite bson_eqb_sym, Hfalse in Heq. discriminate.
      * destruct (Hothers _ Hg') as (_ & Hfalse & _). simpl in Heq.
        rewrite Hfalse in Heq. discriminate.
      * destruct (Hothers _ Hg') as (Hg0 & _), (Hothers _ Hh') as (Hh0 & _).
        now apply Hinj.
    + intros g Hg. destruct (Hsplit _ Hg) as [-> | Hg'].
      * simpl. split; [|intros E; now destruct ms].
        rewrite members_of_snoc. fold k. rewrite Hk'. now rewrite <- Hms.
      * destruct (Hothers _ Hg') as (Hg0 & _ & Hgk).
        destruct (Hmem _ Hg0) as [Hm Hne]. split; [|exact Hne].
        rewrite members_of_snoc. fold k. rewrite Hgk, app_nil_r. exact Hm.
    + intros d' Hd'. apply in_app_or in Hd'. destruct Hd' as [Hd' | [<- | []]].
      * destruct (Hcov _ Hd') as (g & Hg & Hgd).
        apply in_app_or in Hg. destruct Hg as [Hg | [<- | Hg]].
        -- exists g. split; auto. apply in_or_app; now left.
        -- exists (k', ms ++ [d]). split; [apply in_elt | exact Hgd].
        -- exists g. split; auto. apply in_or_app; right; now right.
      * exists (k', ms ++ [d]). split; [apply in_elt | exact Hk'].
Qed.

Lemma partition_by_ok docs : partition_ok docs (Mongo.partition_by id_path docs).
Proof.
  induction docs as [|d docs IH] using rev_ind.
  - constructor; simpl; try easy. constructor.
  - unfold Mongo.partition_by. rewrite fold_left_app. simpl.
    now apply partition_ok_step.
Qed.

End Grouping.

(* ------------------------------------------------------------------ *)
(** ** Aggregation queries *)
(* ------------------------------------------------------------------ *)

(** The contributor a group row stands for. *)
Definition row_id (row : document) : bson := field_or_null "_id" row.

(** The documents behind a group row. *)
Definition books_of (id_path : string) (docs : list document) (row : document)
  : list document :=
  members_of id_path (row_id row) docs.

(** [rows] has exactly one row per contributor found under [id_path]. *)
Record grouped_by (id_path : string) (docs rows : list document) : Prop := {
  gb_nodup : NoDup rows;
  gb_one_per_contributor :
    forall a b, In a rows -> In b rows ->
                Mongo.bson_eqb (row_id a) (row_id b) = true -> a = b;
  gb_nonempty : forall row, In row rows -> books_of id_path docs row <> [];
  gb_cover :
    forall d, In d docs ->
              exists row, In row rows /\
                          Mongo.bson_eqb (row_id row) (field_or_null id_path d) = true
}.

Lemma grouped_by_perm id_path docs rows rows' :
  Permutation rows rows' -> grouped_by id_path docs rows ->
  grouped_by id_path docs rows'.
Proof.
  intros Hp [Hnd Hinj Hne Hcov].
  assert (Hback : forall x, In x rows' -> In x rows).
  { intros x. apply Permutation_in. now apply Permutation_sym. }
  constructor; auto.
  - eapply Permutation_NoDup; eauto.
  - intros d Hd. destruct (Hcov d Hd) as (row & Hrow & Hk).
    exists row. split; auto. eapply Permutation_in; eauto.
Qed.

Lemma row_id_group_row accs g : row_id (Mongo.group_row accs g) = fst g.
Proof. reflexivity. Qed.

(** The [$group] stage yields one row per contributor, and each row is built
    from the documents of its contributor. *)
Lemma group_stage_spec id_path accs docs :
  let rows := Mongo.run_stage (Group id_path accs) docs in
  grouped_by id_path docs rows
  /\ forall row, In row rows ->
                 row = Mongo.group_row accs (row_id row, books_of id_path docs row).
Proof.
  cbv zeta. simpl.
  destruct (partition_by_ok id_path docs) as [Hnd Hinj Hmem Hcov].
  set (G := Mongo.partition_by id_path docs) in *.
  assert (Hrow : forall row, In row (map (Mongo.group_row accs) G) ->
                             exists g, In g G /\ row = Mongo.group_row accs g).
  { intros row Hin. apply in_map_iff in Hin. destruct Hin as (g & <- & Hg).
    now exists g. }
  split; [constructor|].
  - apply NoDup_map_NoDup_ForallPairs; auto.
    intros g h Hg Hh Heq. apply Hinj; auto.
    apply (f_equal row_id) in Heq. rewrite !row_id_group_row in Heq.
    rewrite Heq. apply bson_eqb_refl.
  - intros a b Ha Hb Heq.
    destruct (Hrow _ Ha) as (g & Hg & ->), (Hrow _ Hb) as (h & Hh & ->).
    rewrite !row_id_group_row in Heq. f_equal. now apply Hinj.
  - intros row Hin. destruct (Hrow _ Hin) as (g & Hg & ->).
    unfold books_of. rewrite row_id_group_row.
    destruct (Hmem _ Hg) as [<- Hne]. exact Hne.
  - intros d Hd. destruct (Hcov d Hd) as (g & Hg & Hk).
    exists (Mongo.group_row accs g). split; [now apply in_map|].
    now rewrite row_id_group_row.
  - intros row Hin. destruct (Hrow _ Hin) as (g & Hg & ->).
    unfold books_of. rewrite row_id_group_row.
    destruct (Hmem _ Hg) as [<- _]. now destruct g.
Qed.

Lemma get_field_cons_eq k v (d : document) : get_field k ((k, v) :: d) = Some v.
Proof. cbn [get_field]. now rewrite String.eqb_refl. Qed.

Lemma get_field_cons_neq k k' v (d : document) :
  String.eqb k' k = false -> get_field k ((k', v) :: d) = get_field k d.
Proof. intros H. cbn [get_field]. now rewrite H. Qed.

(** The number a group row carries under [field], if it is a whole number. *)
Definition counted (field : string) (row : document) (n : nat) : Prop :=
  get_field field row = Some (BNum (inject_Z (Z.of_nat n))).

Lemma StronglySorted_weaken {A} (R1 R2 : A -> A -> Prop) l :
  (forall a b, In a l -> In b l -> R1 a b -> R2 a b) ->
  StronglySorted R1 l -> StronglySorted R2 l.
Proof.
  intros Himp Hs. induction Hs as [|a l Hs IH Ha].
  - constructor.
  - constructor.
    + apply IH. intros; apply Himp; auto; now right.
    + rewrite Forall_forall in *. intros b Hb.
      apply Himp; [now left | now right | auto].
Qed.

Lemma bson_num_not_ltb (m n : nat) :
  Mongo.bson_ltb (BNum (inject_Z (Z.of_nat m))) (BNum (inject_Z (Z.of_nat n))) = false ->
  (n <= m)%nat.
Proof.
  simpl. intros H. apply negb_false_iff, Qle_bool_iff in H.
  rewrite <- Zle_Qle in H. lia.
Qed.


(** What is left of a ranking after [$skip 1] and [$limit 1]. *)
Definition second_only (ranking : list document) : list document :=
  match ranking with
  | _ :: second :: _ => [second]
  | _ => []
  end.

(** A ranking of contributors by number of books: one row per contributor,
    each carrying the number of that contributor's documents under
    [count_field], no row followed by one with more books. *)
Record contributor_ranking (id_path count_field : string)
       (docs ranking : list document) : Prop := {
  cr_grouped : grouped_by id_path docs ranking;
  cr_counts :
    forall row, In row ranking ->
                counted count_field row (List.length (books_of id_path docs row));
  cr_descending :
    StronglySorted
      (fun a b => (List.length (books_of id_path docs b)
                   <= List.length (books_of id_path docs a))%nat)
      ranking
}.

Lemma prolific_pipeline_spec id_path count_field uri_path docs :
  String.eqb "_id" count_field = false ->
  exists ranking,
    contributor_ranking id_path count_field docs ranking
    /\ Mongo.run_pipeline
         [ Group id_path [(count_field, AccSum1); ("uri", AccFirst uri_path)];
           Sort count_field (-1); Skip 1; Limit 1 ] docs
       = second_only ranking.
Proof.
  intros Hfield.
  set (accs := [(count_field, AccSum1); ("uri", AccFirst uri_path)]).
  set (rows := Mongo.run_stage (Group id_path accs) docs).
  destruct (group_stage_spec id_path accs docs) as [Hgrouped Hrows].
  fold rows in Hgrouped, Hrows.
  assert (Hcount : forall row, In row rows ->
                     counted count_field row (List.length (books_of id_path docs row))).
  { intros row Hin. rewrite (Hrows row Hin) at 1.
    unfold counted, Mongo.group_row. cbn [map fst snd accs].
    rewrite (get_field_cons_neq _ _ _ _ Hfield), get_field_cons_eq.
    reflexivity. }
  set (ranking := Mongo.sort_rows (Mongo.comes_first count_field (-1)) rows).
  assert (Hperm : Permutation ranking rows) by apply sort_rows_perm.
  assert (Hin : forall row, In row ranking -> In row rows).
  { intros row. now apply Permutation_in. }
  exists ranking. split; [constructor|].
  - apply (grouped_by_perm _ _ rows); auto. now apply Permutation_sym.
  - intros row Hrow. apply Hcount; auto.
  - assert (Hnum : Forall (fun d => not_a_string (field_or_null count_field d)) rows).
    { apply Forall_forall. intros row Hrow.
      unfold field_or_null. rewrite (Hcount row Hrow). exact I. }
    refine (StronglySorted_weaken _ _ _ _ (sort_desc_sorted count_field rows Hnum)).
    intros a b Ha Hb. unfold field_or_null.
    rewrite (Hcount a (Hin a Ha)), (Hcount b (Hin b Hb)).
    apply bson_num_not_ltb.
  - change (firstn 1 (skipn 1 ranking) = second_only ranking).
    destruct ranking as [|first [|second rest]]; reflexivity.
Qed.

Lemma second_only_never_first ranking first :
  NoDup ranking -> hd_error ranking = Some first ->
  ~ In first (second_only ranking).
Proof.
  intros Hnd Hhd Hin.
  destruct ranking as [|a [|b rest]]; simpl in *; try easy.
  injection Hhd as ->. destruct Hin as [-> | []].
  inversion Hnd as [|? ? Hnotin _]; subst. apply Hnotin. now left.
Qed.

Lemma aggregate_run p w :
  aggregate p w = (Returned (Mongo.run_pipeline p (collection w)),
                   traced w [Aggregate p]).
Proof. reflexivity. Qed.

(** C5. Each most-prolific query (author, narrator) returns, out of the
    ranking of contributors by number of books -- one row per contributor,
    most books first -- exactly the row in second place and nothing when
    there is no second place; the row in first place is never returned.
    Both pipelines end in [$skip 1], [$limit 1]. *)
Theorem C5_most_prolific_returns_second_ranked :
  forall w,
    (exists ranking,
        contributor_ranking "main_author.cover_name" "num_books"
                            (collection w) ranking
        /\ find_most_prolific_author w
           = (Returned (second_only ranking),
              traced w [Aggregate most_prolific_author_pipeline])
        /\ forall first, hd_error ranking = Some first ->
                         ~ In first (second_only ranking))
    /\ (exists ranking,
           contributor_ranking "main_actor.cover_name" "books_narrated"
                               (collection w) ranking
           /\ find_most_prolific_narrator w
              = (Returned (second_only ranking),
                 traced w [Aggregate most_prolific_narrator_pipeline])
           /\ forall first, hd_error ranking = Some first ->
                            ~ In first (second_only ranking))
    /\ skipn 2 most_prolific_author_pipeline = [Skip 1; Limit 1]
    /\ skipn 2 most_prolific_narrator_pipeline = [Skip 1; Limit 1].
Proof.
  intros w. split; [|split; [|split; reflexivity]].
  - destruct (prolific_pipeline_spec "main_author.cover_name" "num_books"
                "main_author.uri" (collection w) eq_refl)
      as (ranking & Hranking & Hrun).
    exists ranking. split; [exact Hranking|]. split.
    + unfold find_most_prolific_author. rewrite aggregate_run.
      unfold most_prolific_author_pipeline at 1. now rewrite Hrun.
    + intros first. apply second_only_never_first.
      apply (gb_nodup _ _ _ (cr_grouped _ _ _ _ Hranking)).
  - destruct (prolific_pipeline_spec "main_actor.cover_name" "books_narrated"
                "main_actor.uri" (collection w) eq_refl)
      as (ranking & Hranking & Hrun).
    exists ranking. split; [exact Hranking|]. split.
    + unfold find_most_prolific_narrator. rewrite aggregate_run.
      unfold most_prolific_narrator_pipeline at 1. now rewrite Hrun.
    + intros first. apply second_only_never_first.
      apply (gb_nodup _ _ _ (cr_grouped _ _ _ _ Hranking)).
Qed.

(** A catalogue in which the placeholder leads with three books: the author
    with two is returned, not the leader and not the author with one. *)
Example most_prolific_author_example :
  let book (a : string) : document :=
    [("main_author.cover_name", BStr a); ("main_author.uri", BStr a)] in
  Mongo.run_pipeline most_prolific_author_pipeline
    [book "Толстой"; book "Правда"; book "Чехов"; book "Правда";
     book "Толстой"; book "Правда"]
  = [[("_id", BStr "Толстой"); ("num_books", BNum 2);
      ("uri", BStr "Толстой")]].
Proof. reflexivity. Qed.

(** [numeric_total path books total n]: the numbers found under [path] in
    [books] add up to [total] and there are [n] of them; a document whose
    field is missing or holds no number is passed over. *)
Inductive numeric_total (path : string) : list document -> Q -> nat -> Prop :=
| nt_nil : numeric_total path [] 0%Q 0%nat
| nt_number d ds q total n :
    get_field path d = Some (BNum q) ->
    numeric_total path ds total n ->
    numeric_total path (d :: ds) (q + total)%Q (S n)
| nt_other d ds total n :
    (forall q, get_field path d <> Some (BNum q)) ->
    numeric_total path ds total n ->
    numeric_total path (d :: ds) total n.

(** [m] is the arithmetic mean of the numbers under [path] in [books]:
    there is at least one number, and [m] times their count is their
    total. *)
Definition has_mean (path : string) (books : list document) (m : Q) : Prop :=
  exists total n,
    numeric_total path books total n
    /\ (0 < n)%nat
    /\ (m * inject_Z (Z.of_nat n) == total)%Q.





Lemma numeric_total_values path books :
  numeric_total path books
                (Mongo.Qsum (Mongo.numeric_values path books))
                (List.length (Mongo.numeric_values path books)).
Proof.
  induction books as [|d ds IH]; [constructor|].
  unfold Mongo.numeric_values. cbn [flat_map].
  fold (Mongo.numeric_values path ds).
  destruct (get_field path d) as [[|q|s]|] eqn:Hd; cbn [app];
    try (apply nt_other; [intros q Hq; congruence | exact IH]).
  cbn [Mongo.Qsum fold_right List.length]. fold (Mongo.Qsum (Mongo.numeric_values path ds)).
  now apply nt_number.
Qed.

Lemma numeric_total_unique path books total n :
  numeric_total path books total n ->
  total = Mongo.Qsum (Mongo.numeric_values path books)
  /\ n = List.length (Mongo.numeric_values path books).
Proof.
  induction 1 as [|d ds q total n Hd _ [IHt IHn]|d ds total n Hd _ [IHt IHn]].
  - now split.
  - unfold Mongo.numeric_values. cbn [flat_map]. rewrite Hd.
    fold (Mongo.numeric_values path ds). cbn [app Mongo.Qsum fold_right List.length].
    fold (Mongo.Qsum (Mongo.numeric_values path ds)). now subst.
  - unfold Mongo.numeric_values. cbn [flat_map].
    fold (Mongo.numeric_values path ds).
    destruct (get_field path d) as [[|q|s]|] eqn:Hq; cbn [app]; auto.
    now destruct (Hd q).
Qed.

(** The mean of a group is the total of its numbers over their count. *)
Lemma has_mean_values path books m :
  has_mean path books m
  <-> Mongo.numeric_values path books <> []
      /\ (m == Mongo.Qsum (Mongo.numeric_values path books)
              / inject_Z (Z.of_nat (List.length (Mongo.numeric_values path books))))%Q.
Proof.
  set (vs := Mongo.numeric_values path books).
  assert (Hpos : forall n, (0 < n)%nat -> ~ (inject_Z (Z.of_nat n) == 0)%Q).
  { intros n Hn E. unfold Qeq in E. simpl in E. lia. }
  split.
  - intros (total & n & Ht & Hn & Hm).
    destruct (numeric_total_unique _ _ _ _ Ht) as [-> ->]. fold vs in Hn, Hm |- *.
    split; [intros E; rewrite E in Hn; simpl in Hn; lia|].
    rewrite <- Hm. field. now apply Hpos.
  - intros [Hne Hm].
    exists (Mongo.Qsum vs), (List.length vs).
    assert (Hn : (0 < List.length vs)%nat).
    { destruct vs; [congruence | simpl; lia]. }
    split; [apply numeric_total_values|]. split; [exact Hn|].
    rewrite Hm. field. now apply Hpos.
Qed.



(** Two authors with five books each (means 4 and 3) and one author with a
    single book rated 5. *)
Definition rated_books_example : list document :=
  let book (a : string) (rating : Q) : document :=
    [("main_author.cover_name", BStr a); ("main_author.uri", BStr a);
     ("global_rating", BNum rating)] in
  [book "Единственный" 5%Q;
   book "Чехов" 3%Q; book "Чехов" 3%Q; book "Чехов" 3%Q; book "Чехов" 3%Q;
   book "Чехов" 3%Q;
   book "Толстой" 4%Q; book "Толстой" 4%Q; book "Толстой" 4%Q;
   book "Толстой" 4%Q; book "Толстой" 4%Q].

(** The author averaging 4 is returned, with the number of books and the
    average. *)
Example highest_AVG_rated_author_example :
  map (fun row => (get_field "_id" row, get_field "sum_books" row,
                   get_field "avg_rating" row))
      (Mongo.run_pipeline highest_AVG_rated_author_pipeline rated_books_example)
  = [(Some (BStr "Толстой"), Some (BNum 5), Some (BNum (20 # 5)))].
Proof. reflexivity. Qed.


(** The mean of the five ratings of the author returned is 4, and the one
    book rated 5 has mean 5. *)
Example rated_books_example_means :
  has_mean "global_rating"
           (members_of "main_author.cover_name" (BStr "Толстой")
                       rated_books_example) 4
  /\ has_mean "global_rating"
              (members_of "main_author.cover_name" (BStr "Единственный")
                          rated_books_example) 5.
Proof.
  split; apply has_mean_values; (split; [discriminate | reflexivity]).
Qed.


(* ------------------------------------------------------------------ *)
(** ** [itertools.permutations] *)
(* ------------------------------------------------------------------ *)

Lemma picks_spec {A} (l : list A) x rest :
  In (x, rest) (Py.picks l) <->
  exists l1 l2, l = l1 ++ x :: l2 /\ rest = l1 ++ l2.
Proof.
  revert rest. induction l as [|y l IH]; intros rest; simpl.
  - split; [intros [] | intros (l1 & l2 & H & _); now destruct l1].
  - split.
    + intros [H | H].
      * injection H as -> ->. now exists [], rest.
      * apply in_map_iff in H. destruct H as ([x' rest'] & Heq & Hin).
        simpl in Heq. injection Heq as -> <-.
        apply IH in Hin. destruct Hin as (l1 & l2 & -> & ->).
        now exists (y :: l1), l2.
    + intros (l1 & l2 & Hl & ->). destruct l1 as [|z l1]; simpl in Hl.
      * injection Hl as -> ->. now left.
      * injection Hl as -> ->. right.
        apply in_map_iff. exists (x, l1 ++ l2). split; auto.
        apply IH. now exists l1, l2.
Qed.

(** Every arrangement consists of [r] elements of the pool taken at
    distinct positions. *)
Lemma permutations_sound {A} r : forall (pool c : list A),
  In c (Py.permutations pool r) ->
  List.length c = r /\ exists rest, Permutation (c ++ rest) pool.
Proof.
  induction r as [|r IH]; intros pool c Hin; simpl in Hin.
  - destruct Hin as [<- | []]. split; auto. now exists pool.
  - apply in_flat_map in Hin. destruct Hin as ([x pool'] & Hpick & Hc).
    apply in_map_iff in Hc. destruct Hc as (c' & <- & Hc'). simpl in *.
    apply picks_spec in Hpick. destruct Hpick as (l1 & l2 & -> & ->).
    destruct (IH _ _ Hc') as (Hlen & rest & Hperm).
    split; [simpl; now rewrite Hlen|].
    exists rest. simpl. now apply Permutation_cons_app.
Qed.

(** ... and every such choice is listed. *)
Lemma permutations_complete {A} : forall (c pool rest : list A),
  Permutation (c ++ rest) pool ->
  In c (Py.permutations pool (List.length c)).
Proof.
  induction c as [|x c IH]; intros pool rest Hperm; simpl.
  - now left.
  - assert (Hx : In x pool).
    { eapply Permutation_in; [exact Hperm | now left]. }
    apply in_split in Hx. destruct Hx as (l1 & l2 & ->).
    apply in_flat_map. exists (x, l1 ++ l2). split.
    + apply picks_spec. now exists l1, l2.
    + apply in_map. apply (IH _ rest).
      simpl in Hperm. now apply Permutation_cons_app_inv in Hperm.
Qed.

(** Taken at full length, the arrangements are the rearrangements of the
    pool. *)
Lemma permutations_full {A} (pool c : list A) :
  In c (Py.permutations pool (List.length pool)) <-> Permutation c pool.
Proof.
  split.
  - intros Hin. destruct (permutations_sound _ _ _ Hin) as (Hlen & rest & Hperm).
    assert (rest = []) as ->.
    { apply Permutation_length in Hperm. rewrite length_app in Hperm.
      destruct rest; auto. simpl in Hperm. lia. }
    now rewrite app_nil_r in Hperm.
  - intros Hperm. rewrite <- (Permutation_length Hperm).
    apply (permutations_complete c pool []). now rewrite app_nil_r.
Qed.

(* ------------------------------------------------------------------ *)
(** ** Lookup *)
(* ------------------------------------------------------------------ *)

(** A read-only manager, given by what it answers: [count instance name]
    documents match, and the search yields [rows instance name]. *)
Definition oracle_manager (count : string -> string -> Z)
           (rows : string -> string -> cursor) : DBManagerLike :=
  {| dm_count_docs := fun instance name =>
       emit (CountDocuments instance name) ;;; ret (count instance name);
     dm_find_instance_stats := fun instance name =>
       emit (Find (Some (instance, name)) "reviews_count") ;;;
       ret (rows instance name) |}.

(** The first pattern of a list with a positive match count. *)
Definition first_match (count : string -> string -> Z) (instance : string)
           (patterns : list string) : option string :=
  find (fun p => 0 <? count instance p) patterns.

(** What a lookup over [patterns] returns. *)
Definition resolve_over (count : string -> string -> Z)
           (rows : string -> string -> cursor)
           (instance query_string : string) (patterns : list string)
  : queryset * string :=
  match first_match count instance patterns with
  | Some p => (QCursor (rows instance p), query_string)
  | None => (QMessage NOTHING_FOUND_MSG, query_string)
  end.

(** The store calls of a lookup over [patterns]: a count per pattern, up to
    and including the first with a positive count, then the search for
    that one. *)
Fixpoint probes (count : string -> string -> Z) (instance : string)
         (patterns : list string) : list event :=
  match patterns with
  | [] => []
  | p :: rest =>
      CountDocuments instance p ::
      (if 0 <? count instance p
       then [Find (Some (instance, p)) "reviews_count"]
       else probes count instance rest)
  end.

Lemma try_combinations_spec count rows instance query_string combinations w :
  try_combinations (oracle_manager count rows) instance query_string
                   combinations w
  = (Returned (resolve_over count rows instance query_string
                            (map (Py.join " ") combinations)),
     traced w (probes count instance (map (Py.join " ") combinations))).
Proof.
  revert w. induction combinations as [|c rest IH]; intros w.
  - unfold resolve_over, traced; simpl. rewrite app_nil_r. now destruct w.
  - cbn [try_combinations map probes]. unfold resolve_over, first_match.
    cbn [find]. unfold bind at 1. cbn [oracle_manager dm_count_docs].
    unfold bind at 1, emit at 1, ret at 1.
    destruct (0 <? count instance (Py.join " " c)) eqn:Hpos.
    + cbn [dm_find_instance_stats]. run_coro. unfold traced.
      now rewrite <- app_assoc.
    + rewrite IH. unfold traced; simpl. rewrite <- app_assoc. reflexivity.
Qed.

(** The patterns a lookup tries: the rearrangements of the query words,
    joined by spaces -- except for an author query of two words, where
    they are the ordered pairs drawn from the two words and the patronymic
    fragment. *)
Definition lookup_patterns (instance : string) (args : list string) : list string :=
  match args with
  | [a; b] =>
      if String.eqb instance "author" then
        map (Py.join " ")
            [[a; b]; [a; OPTIONAL_PATRONYMIC];
             [b; a]; [b; OPTIONAL_PATRONYMIC];
             [OPTIONAL_PATRONYMIC; a]; [OPTIONAL_PATRONYMIC; b]]
      else map (Py.join " ") [[a; b]; [b; a]]
  | _ => map (Py.join " ") (Py.permutations args (List.length args))
  end.

Lemma get_instance_queryset_accepted count rows instance args w :
  (List.length args <= 9)%nat ->
  get_instance_queryset (oracle_manager count rows) instance args w
  = (Returned (resolve_over count rows instance (Py.join " " args)
                            (lookup_patterns instance args)),
     traced w (probes count instance (lookup_patterns instance args))).
Proof.
  intros Hlen. unfold get_instance_queryset.
  assert (Hle : (9 <? List.length args)%nat = false) by (apply Nat.ltb_ge; lia).
  rewrite Hle. rewrite try_combinations_spec.
  assert (Hpat : map (Py.join " ")
                     (Py.permutations
                        (if String.eqb instance "author"
                            && (List.length args =? 2)%nat
                         then args ++ [OPTIONAL_PATRONYMIC] else args)
                        (List.length args))
                 = lookup_patterns instance args).
  { unfold lookup_patterns.
    destruct args as [|a [|b [|c args]]];
      destruct (String.eqb instance "author"); reflexivity. }
  now rewrite Hpat.
Qed.

(** [get_instance_queryset] rejects a query of more than nine words with
    [sys.exit(message)], before any call to the manager. *)
Lemma get_instance_queryset_too_long dbm instance args w :
  (9 < List.length args)%nat ->
  get_instance_queryset dbm instance args w
  = (SystemExit (ExitMessage TOO_LONG_QUERY_MSG), w).
Proof.
  intros Hlen. unfold get_instance_queryset.
  assert (Hlt : (9 <? List.length args)%nat = true) by (apply Nat.ltb_lt; lia).
  now rewrite Hlt.
Qed.

Lemma first_match_split count instance patterns p :
  first_match count instance patterns = Some p ->
  exists before after,
    patterns = before ++ p :: after
    /\ 0 < count instance p
    /\ Forall (fun q => count instance q <= 0) before.
Proof.
  unfold first_match. induction patterns as [|q rest IH]; simpl; [easy|].
  destruct (0 <? count instance q) eqn:Hq.
  - intros [= ->]. exists [], rest. repeat split; auto. now apply Z.ltb_lt.
  - intros H. destruct (IH H) as (before & after & -> & Hp & Hall).
    exists (q :: before), after. repeat split; auto.
    constructor; auto. apply Z.ltb_ge in Hq. exact Hq.
Qed.

Lemma first_match_none count instance patterns :
  first_match count instance patterns = None <->
  Forall (fun q => count instance q <= 0) patterns.
Proof.
  unfold first_match. induction patterns as [|q rest IH]; simpl.
  - split; auto.
  - destruct (0 <? count instance q) eqn:Hq.
    + split; [easy|]. intros H. inversion H; subst.
      apply Z.ltb_lt in Hq. lia.
    + rewrite IH. apply Z.ltb_ge in Hq. split.
      * now constructor.
      * intros H. now inversion H.
Qed.

(** The real manager answers like the read-only manager of the collection
    it holds. *)
Lemma db_manager_is_oracle regex_search instance name w :
  dm_count_docs (db_manager regex_search) instance name w
  = dm_count_docs
      (oracle_manager (count_documents regex_search (collection w))
                      (instance_stats regex_search (collection w)))
      instance name w
  /\ dm_find_instance_stats (db_manager regex_search) instance name w
     = dm_find_instance_stats
         (oracle_manager (count_documents regex_search (collection w))
                         (instance_stats regex_search (collection w)))
         instance name w.
Proof. split; reflexivity. Qed.

(** The lookup as the specification words it: the patterns tried are the
    rearrangements of the query words. *)
Definition resolve_by_word_permutations (count : string -> string -> Z)
           (rows : string -> string -> cursor) (instance : string)
           (words : list string) : queryset * string :=
  resolve_over count rows instance (Py.join " " words)
               (map (Py.join " ") (Py.permutations words (List.length words))).

(** The same, with the patronymic fragment of a two-word author query
    counted among the words to rearrange. *)
Definition resolve_by_token_permutations (count : string -> string -> Z)
           (rows : string -> string -> cursor) (instance : string)
           (words : list string) : queryset * string :=
  let tokens :=
    if String.eqb instance "author" && (List.length words =? 2)%nat
    then words ++ [OPTIONAL_PATRONYMIC] else words in
  resolve_over count rows instance (Py.join " " words)
               (map (Py.join " ") (Py.permutations tokens (List.length tokens))).

(** A manager that finds documents for one pattern only. *)
Definition only_pattern (pattern : string) : DBManagerLike :=
  oracle_manager (fun _ p => if String.eqb p pattern then 1 else 0)
                 (fun _ p => [[("name", BStr p)]]).

(** For the author query ["Толстой"; "Лев"] and a store in which only
    "Толстой" followed by the patronymic fragment matches (an author
    "Толстой Алексей", say), the code returns that search, while no
    rearrangement of the words -- with or without the fragment among them
    -- matches anything. *)
Lemma C7_author_pair_counterexample :
  let count := fun (_ p : string) =>
                 if String.eqb p "Толстой [а-яa-z]* ?" then 1 else 0 in
  let rows := fun (_ p : string) => [[("name", BStr p)]] : cursor in
  let code := fst (get_instance_queryset (oracle_manager count rows) "author"
                                         ["Толстой"; "Лев"] (mkWorld [] [] [])) in
  (List.length ["Толстой"; "Лев"] <= 9)%nat
  /\ code = Returned (QCursor [[("name", BStr "Толстой [а-яa-z]* ?")]],
                      "Толстой Лев")
  /\ code <> Returned (resolve_by_word_permutations count rows "author"
                                                    ["Толстой"; "Лев"])
  /\ code <> Returned (resolve_by_token_permutations count rows "author"
                                                     ["Толстой"; "Лев"]).
Proof.
  cbv zeta. split; [simpl; lia|]. split; [reflexivity|].
  split; vm_compute; discriminate.
Qed.

(** C7 (amended). For every query of at most nine words other than a
    two-word author query, the lookup counts the matches of each
    space-joined rearrangement of the query words, in the generator's
    order, stops at the first with a positive count and returns the search
    for exactly that pattern together with the original query string; when
    none matches it returns the nothing-found message with the original
    query string. *)
Theorem C7_lookup_returns_first_matching_permutation :
  forall count rows instance args w,
    (List.length args <= 9)%nat ->
    String.eqb instance "author" && (List.length args =? 2)%nat = false ->
    let patterns :=
      map (Py.join " ") (Py.permutations args (List.length args)) in
    get_instance_queryset (oracle_manager count rows) instance args w
    = (Returned (resolve_over count rows instance (Py.join " " args) patterns),
       traced w (probes count instance patterns))
    /\ (forall c, In c (Py.permutations args (List.length args))
                  <-> Permutation c args)
    /\ (forall p, first_match count instance patterns = Some p ->
                  exists before after,
                    patterns = before ++ p :: after
                    /\ 0 < count instance p
                    /\ Forall (fun q => count instance q <= 0) before)
    /\ (first_match count instance patterns = None <->
        Forall (fun q => count instance q <= 0) patterns).
Proof.
  intros count rows instance args w Hlen Hnot patterns.
  split; [|split; [|split]].
  - rewrite get_instance_queryset_accepted by exact Hlen.
    assert (Hpat : lookup_patterns instance args = patterns).
    { unfold lookup_patterns, patterns.
      destruct args as [|a [|b [|c args]]]; try reflexivity.
      destruct (String.eqb instance "author"); [discriminate | reflexivity]. }
    now rewrite Hpat.
  - intros c. apply permutations_full.
  - intros p. apply first_match_split.
  - apply first_match_none.
Qed.

Lemma C7_lookup_witness :
  let count := fun (_ p : string) => if String.eqb p "мир война" then 3 else 0 in
  let rows := fun (_ p : string) => [[("name", BStr "Война и мир")]] : cursor in
  get_instance_queryset (oracle_manager count rows) "name" ["война"; "мир"]
                        (mkWorld [] [] [])
  = (Returned (QCursor [[("name", BStr "Война и мир")]], "война мир"),
     mkWorld [] []
       [CountDocuments "name" "война мир"; CountDocuments "name" "мир война";
        Find (Some ("name", "мир война")) "reviews_count"]).
Proof.
  cbv zeta.
  exact (proj1 (C7_lookup_returns_first_matching_permutation
                  (fun _ p => if String.eqb p "мир война" then 3 else 0)
                  (fun _ _ => [[("name", BStr "Война и мир")]])
                  "name" ["война"; "мир"] (mkWorld [] [] [])
                  ltac:(simpl; lia) eq_refl)).
Defined.

(** X25. What the lookup does for an author query of two words: the length
    handed to [permutations] is the number of words before the patronymic
    fragment was appended, so the patterns tried are, in this order, the
    six ordered pairs drawn from the two words and the fragment.  No
    pattern of three parts is built, whatever the manager answers. *)
Theorem author_pair_lookup_tries_ordered_pairs :
  forall count rows a b w,
    let pairs := [[a; b]; [a; OPTIONAL_PATRONYMIC];
                  [b; a]; [b; OPTIONAL_PATRONYMIC];
                  [OPTIONAL_PATRONYMIC; a]; [OPTIONAL_PATRONYMIC; b]] in
    let patterns := map (Py.join " ") pairs in
    get_instance_queryset (oracle_manager count rows) "author" [a; b] w
    = (Returned (resolve_over count rows "author" (Py.join " " [a; b])
                              patterns),
       traced w (probes count "author" patterns))
    /\ Py.permutations [a; b; OPTIONAL_PATRONYMIC] 2 = pairs
    /\ (first_match count "author" patterns = None <->
        Forall (fun p => count "author" p <= 0) patterns).
Proof.
  intros count rows a b w pairs patterns. split; [|split].
  - now rewrite get_instance_queryset_accepted by (simpl; lia).
  - reflexivity.
  - apply first_match_none.
Qed.

(** The rejection as the specification words it: the lookup hands a value
    back to its caller. *)
Definition too_long_query_returns_as_specified : Prop :=
  forall dbm instance args w,
    (9 < List.length args)%nat ->
    exists value, fst (get_instance_queryset dbm instance args w) = Returned value.

Lemma C9_ten_words_counterexample :
  ~ too_long_query_returns_as_specified.
Proof.
  intros Hspec.
  destruct (Hspec (only_pattern "") "name"
                  ["a"; "b"; "c"; "d"; "e"; "f"; "g"; "h"; "i"; "j"]
                  (mkWorld [] [] []) ltac:(simpl; lia)) as [value Hvalue].
  discriminate.
Qed.

(** C9 (amended). A query of more than nine words is rejected by
    [sys.exit] with the too-long-query message, before any call to the
    manager and with the world untouched: the lookup returns nothing, the
    [SystemExit] passes through its caller, and the process status is 1. *)
Theorem C9_too_long_query_exits_with_message :
  forall dbm instance args w,
    (9 < List.length args)%nat ->
    get_instance_queryset dbm instance args w
    = (SystemExit (ExitMessage TOO_LONG_QUERY_MSG), w)
    /\ exit_status (ExitMessage TOO_LONG_QUERY_MSG) = 1
    /\ forall (A : Type) (after : queryset * string -> M A),
        bind (get_instance_queryset dbm instance args) after w
        = (SystemExit (ExitMessage TOO_LONG_QUERY_MSG), w).
Proof.
  intros dbm instance args w Hlen.
  pose proof (get_instance_queryset_too_long dbm instance args w Hlen) as Hexit.
  split; [exact Hexit|]. split; [reflexivity|].
  intros A after. unfold bind. now rewrite Hexit.
Qed.

Lemma C9_too_long_query_witness :
  get_instance_queryset (only_pattern "a") "name"
                        ["a"; "b"; "c"; "d"; "e"; "f"; "g"; "h"; "i"; "j"]
                        (mkWorld [] [] [])
  = (SystemExit (ExitMessage TOO_LONG_QUERY_MSG), mkWorld [] [] []).
Proof.
  exact (proj1 (C9_too_long_query_exits_with_message
                  (only_pattern "a") "name"
                  ["a"; "b"; "c"; "d"; "e"; "f"; "g"; "h"; "i"; "j"]
                  (mkWorld [] [] []) ltac:(simpl; lia))).
Defined.

(** X23. From [main]: an author lookup of more than nine words ends the process
    with the message; no table is built and the store is not consulted. *)
Lemma main_too_long_author_query net regex_search args words w :
  load args = false -> drop_collection_flag args = false -> stats args = false ->
  author args = Some words -> (9 < List.length words)%nat ->
  main net regex_search args w
  = (SystemExit (ExitMessage TOO_LONG_QUERY_MSG), w).
Proof.
  intros Hload Hdrop Hstats Hauthor Hlen.
  unfold main. rewrite Hload, Hdrop, Hstats, Hauthor.
  destruct words as [|word words]; [simpl in Hlen; lia|].
  cbn [truthy orb]. unfold bind.
  now rewrite (get_instance_queryset_too_long _ _ _ _ Hlen).
Qed.

(* ------------------------------------------------------------------ *)
(** ** The statistics panel *)
(* ------------------------------------------------------------------ *)

Definition NO_AWAIT_COROUTINE_QUERY : exc :=
  mkExc AttributeError
        "'PanelQueryHandler' object has no attribute 'await_coroutine_query'".

Lemma await_all_queries_raises regex_search w :
  await_all_queries regex_search w
  = (Raised NO_AWAIT_COROUTINE_QUERY,
     mkWorld (collection w)
             (results w ++ [RInt (Z.of_nat (List.length (collection w)))])
             (trace w ++ [EstimatedDocumentCount])).
Proof. reflexivity. Qed.

(** C10. For every store state, [await_all_queries] on a fresh
    [PanelQueryHandler] raises [AttributeError]: the name
    [await_coroutine_query] is no attribute of the instance (the method
    defined is [_await_coroutine_query]).  When it is raised, [results]
    holds the total count alone and the count is the only call the store
    received, so none of the six coroutine queries was run. *)
Theorem C10_await_all_queries_raises_attribute_error :
  forall regex_search w,
    bind PanelQueryHandler_init (fun _ => await_all_queries regex_search) w
    = (Raised NO_AWAIT_COROUTINE_QUERY,
       mkWorld (collection w)
               [RInt (Z.of_nat (List.length (collection w)))]
               (trace w ++ [EstimatedDocumentCount]))
    /\ lookup_attr "await_coroutine_query"
                   (PanelQueryHandler_attributes regex_search) = None
    /\ lookup_attr "_await_coroutine_query"
                   (PanelQueryHandler_attributes regex_search)
       = Some (AttrOnCoroutine _await_coroutine_query)
    /\ List.length (panel_coroutine_queries regex_search) = 6%nat.
Proof.
  intros regex_search w. repeat split.
Qed.

(** X24. From [main]: [--stats] ends in the same [AttributeError]; no panel is
    printed. *)
Lemma main_stats_raises net regex_search args w :
  load args = false -> drop_collection_flag args = false -> stats args = true ->
  main net regex_search args w
  = (Raised NO_AWAIT_COROUTINE_QUERY,
     mkWorld (collection w)
             [RInt (Z.of_nat (List.length (collection w)))]
             (trace w ++ [EstimatedDocumentCount])).
Proof.
  intros Hload Hdrop Hstats. unfold main. rewrite Hload, Hdrop, Hstats.
  reflexivity.
Qed.

(* ================================================================== *)
(** * Further properties of the ingestion run *)
(* ================================================================== *)

(** [round(n / d)] is a nearest integer of the quotient. *)
Lemma round_div_nearest n d :
  0 < d -> 2 * Z.abs (n - Py.round_div n d * d) <= d.
Proof.
  intros Hd. unfold Py.round_div.
  assert (Hneg : (d <? 0) = false) by (apply Z.ltb_ge; lia).
  rewrite Hneg, (Z.abs_eq d) by lia.
  pose proof (Z.div_mod n d ltac:(lia)) as Hdm.
  pose proof (Z.mod_pos_bound n d Hd) as Hr.
  destruct (2 * (n mod d) ?= d) eqn:Hc.
  - apply Z.compare_eq in Hc. destruct (Z.even (n / d)); nia.
  - rewrite Z.compare_lt_iff in Hc. nia.
  - rewrite Z.compare_gt_iff in Hc. nia.
Qed.

Lemma round_div_nonneg n d : 0 <= n -> 0 < d -> 0 <= Py.round_div n d.
Proof.
  intros Hn Hd. pose proof (round_div_nearest n d Hd) as H.
  destruct (Z.le_gt_cases 0 (Py.round_div n d)); auto. nia.
Qed.

(** The quotient rounds down exactly when the remainder is below half the
    divisor, or is half of it with an even quotient. *)
Lemma round_div_rounds_down n d :
  0 < d ->
  (Py.round_div n d * d < n
   <-> 0 < n mod d
       /\ (2 * (n mod d) < d
           \/ (2 * (n mod d) = d /\ Z.even (n / d) = true))).
Proof.
  intros Hd. unfold Py.round_div.
  assert (Hneg : (d <? 0) = false) by (apply Z.ltb_ge; lia).
  rewrite Hneg, (Z.abs_eq d) by lia.
  pose proof (Z.div_mod n d ltac:(lia)) as Hdm.
  pose proof (Z.mod_pos_bound n d Hd) as Hr.
  destruct (2 * (n mod d) ?= d) eqn:Hc.
  - apply Z.compare_eq in Hc. destruct (Z.even (n / d)) eqn:He.
    + split; [intros; split; [nia | right; auto] | intros; nia].
    + split; [intros; nia | intros (_ & [H | [_ H]]); [nia | discriminate]].
  - rewrite Z.compare_lt_iff in Hc.
    split; [intros; split; [nia | left; auto] | intros; nia].
  - rewrite Z.compare_gt_iff in Hc.
    split; [intros; nia | intros (_ & [H | [H _]]); nia].
Qed.

Lemma range_length lo hi : List.length (Py.range lo hi) = Z.to_nat (hi - lo).
Proof. unfold Py.range. now rewrite length_map, length_seq. Qed.

Lemma range_In lo hi k : In k (Py.range lo hi) <-> lo <= k < hi.
Proof.
  unfold Py.range. rewrite in_map_iff. split.
  - intros (i & <- & Hi). apply in_seq in Hi. lia.
  - intros H. exists (Z.to_nat (k - lo)). split; [lia|].
    apply in_seq. lia.
Qed.

Lemma spawn_tasks_run chunk_size page_numbers task_list w :
  spawn_tasks chunk_size page_numbers task_list w
  = (Returned (task_list ++ map (url_template chunk_size) page_numbers),
     traced w (map (fun p => CreateTask (url_template chunk_size p))
                   page_numbers)).
Proof.
  revert task_list w. induction page_numbers as [|p rest IH]; intros task_list w.
  - simpl. unfold ret, traced. rewrite !app_nil_r. now destruct w.
  - cbn [spawn_tasks map]. unfold bind at 1, emit at 1.
    rewrite IH. unfold traced; simpl. now rewrite <- !app_assoc.
Qed.

Lemma get_total_pages_responds net chunk_size w count other :
  net verification_url = Responds (mkPage (Some count) other) ->
  chunk_size <> 0 ->
  get_total_pages net chunk_size w
  = (Returned (Py.round_div count chunk_size + 1),
     traced w [HttpGet verification_url]).
Proof.
  intros Hnet Hchunk. unfold get_total_pages, try_except, bind.
  rewrite (get_json_responds _ _ _ _ Hnet). simpl.
  apply Z.eqb_neq in Hchunk. now rewrite Hchunk.
Qed.

(** The page numbers [create_tasks] builds tasks for. *)
Definition requested_pages (count chunk_size : Z) : list Z :=
  Py.range 1 (Py.round_div count chunk_size + 1).

Lemma create_tasks_responds net chunk_size w count other :
  net verification_url = Responds (mkPage (Some count) other) ->
  chunk_size <> 0 ->
  create_tasks net chunk_size w
  = (Returned (map (url_template chunk_size)
                   (requested_pages count chunk_size)),
     traced w (HttpGet verification_url
               :: map (fun p => CreateTask (url_template chunk_size p))
                      (requested_pages count chunk_size))).
Proof.
  intros Hnet Hchunk. unfold create_tasks, bind.
  rewrite (get_total_pages_responds _ _ _ _ _ Hnet Hchunk).
  rewrite spawn_tasks_run. now rewrite traced_app.
Qed.

(** X1. With a decoded verification envelope whose [count] is not
    negative, a positive chunk size, and both below 2^51 -- where the float
    quotient of [get_total_pages] rounds to the same integer as the exact
    one -- [create_tasks] returns one task per page number 1, 2, ..., N in
    this order, where N is [count / chunk_size] rounded to the nearest
    integer: N differs from the exact quotient by at most one half. *)
Theorem create_tasks_one_task_per_rounded_page :
  forall net chunk_size w count other,
    net verification_url = Responds (mkPage (Some count) other) ->
    0 <= count < 2 ^ 51 -> 0 < chunk_size < 2 ^ 51 ->
    exists N,
      0 <= N
      /\ 2 * Z.abs (count - N * chunk_size) <= chunk_size
      /\ fst (create_tasks net chunk_size w)
         = Returned (map (url_template chunk_size)
                         (map Z.of_nat (seq 1 (Z.to_nat N)))).
Proof.
  intros net chunk_size w count other Hnet [Hcount _] [Hchunk _].
  exists (Py.round_div count chunk_size).
  split; [now apply round_div_nonneg|].
  split; [now apply round_div_nearest|].
  rewrite (create_tasks_responds _ _ _ _ _ Hnet) by lia. simpl.
  do 2 f_equal. unfold requested_pages, Py.range.
  replace (Py.round_div count chunk_size + 1 - 1)
    with (Py.round_div count chunk_size) by lia.
  rewrite <- seq_shift, map_map. apply map_ext. intros k. lia.
Qed.

Lemma create_tasks_one_task_per_rounded_page_witness :
  exists N,
    0 <= N
    /\ 2 * Z.abs (3400 - N * 1000) <= 1000
    /\ fst (create_tasks (fun _ => Responds (mkPage (Some 3400) None)) 1000
                         (mkWorld [] [] []))
       = Returned (map (url_template 1000) (map Z.of_nat (seq 1 (Z.to_nat N)))).
Proof.
  apply (create_tasks_one_task_per_rounded_page
           (fun _ => Responds (mkPage (Some 3400) None)) 1000
           (mkWorld [] [] []) 3400 None); [reflexivity | lia | lia].
Defined.

(** X2. In the same range, the pages requested fall short of the catalogue
    exactly when the last, partial page holds fewer than half a chunk of
    items (or exactly half after an even number of full pages): that page
    gets no task. *)
Theorem create_tasks_misses_small_last_page :
  forall net chunk_size w count other,
    net verification_url = Responds (mkPage (Some count) other) ->
    0 <= count < 2 ^ 51 -> 0 < chunk_size < 2 ^ 51 ->
    exists task_list,
      fst (create_tasks net chunk_size w) = Returned task_list
      /\ (Z.of_nat (List.length task_list) * chunk_size < count
          <-> 0 < count mod chunk_size
              /\ (2 * (count mod chunk_size) < chunk_size
                  \/ (2 * (count mod chunk_size) = chunk_size
                      /\ Z.even (count / chunk_size) = true))).
Proof.
  intros net chunk_size w count other Hnet [Hcount _] [Hchunk _].
  rewrite (create_tasks_responds _ _ _ _ _ Hnet) by lia.
  eexists. split; [reflexivity|].
  rewrite length_map. unfold requested_pages. rewrite range_length.
  pose proof (round_div_nonneg count chunk_size Hcount Hchunk).
  replace (Z.of_nat (Z.to_nat (Py.round_div count chunk_size + 1 - 1)))
    with (Py.round_div count chunk_size) by lia.
  now apply round_div_rounds_down.
Qed.

Lemma create_tasks_misses_small_last_page_witness :
  exists task_list,
    fst (create_tasks (fun _ => Responds (mkPage (Some 2400) None)) 1000
                      (mkWorld [] [] []))
    = Returned task_list
    /\ Z.of_nat (List.length task_list) * 1000 < 2400.
Proof.
  destruct (create_tasks_misses_small_last_page
              (fun _ => Responds (mkPage (Some 2400) None)) 1000
              (mkWorld [] [] []) 2400 None eq_refl ltac:(lia) ltac:(lia))
    as (task_list & Hrun & Hshort).
  exists task_list. split; [exact Hrun|].
  apply Hshort. vm_compute. split; [reflexivity | left; reflexivity].
Defined.

(** The documents a GET on [url] ends up storing: the [results] of a
    decoded envelope when it is a list, nothing otherwise. *)
Definition page_items (net : string -> http_reply) (url : string)
  : list document :=
  match net url with
  | Responds p =>
      match page_results p with
      | Some batch => batch
      | None => []
      end
  | _ => []
  end.

(** What one page task does to the world, whatever the reply. *)
Lemma fetch_and_insert_effect net url w :
  exists events,
    fetch_and_insert net url w
    = (Returned tt,
       mkWorld (collection w ++ page_items net url) (results w)
               (trace w ++ HttpGet url :: events)).
Proof.
  unfold page_items, fetch_and_insert, try_except, bind, get_json,
    insert_docs, insert_many.
  run_coro.
  destruct (net url) as [[cls msg] | [cls msg] | [count [[|d batch]|]]];
    simpl.
  - destruct cls; simpl; unfold emit; simpl; rewrite app_nil_r;
      rewrite <- app_assoc; eexists; reflexivity.
  - destruct cls; simpl; unfold emit; simpl; rewrite app_nil_r;
      rewrite <- app_assoc; eexists; reflexivity.
  - unfold emit; simpl. rewrite app_nil_r, <- !app_assoc.
    eexists; reflexivity.
  - rewrite <- !app_assoc. eexists; reflexivity.
  - unfold emit; simpl. rewrite app_nil_r, <- !app_assoc.
    eexists; reflexivity.
Qed.

(** Page tasks run one after the other. *)
Lemma run_tasks_effect net urls : forall w,
  exists events,
    for_each urls (fetch_and_insert net) w
    = (Returned tt,
       mkWorld (collection w ++ flat_map (page_items net) urls) (results w)
               (trace w ++ events)).
Proof.
  induction urls as [|url urls IH]; intros w.
  - exists []. simpl. unfold ret. rewrite !app_nil_r. now destruct w.
  - cbn [for_each flat_map]. unfold bind.
    destruct (fetch_and_insert_effect net url w) as [ev1 ->].
    destruct (IH (mkWorld (collection w ++ page_items net url) (results w)
                          (trace w ++ HttpGet url :: ev1))) as [ev2 ->].
    simpl. exists (HttpGet url :: ev1 ++ ev2).
    now rewrite <- !app_assoc.
Qed.

(** The URLs of the page tasks of a run. *)
Definition task_urls (count chunk_size : Z) : list string :=
  map (url_template chunk_size) (requested_pages count chunk_size).

Lemma execute_tasks_effect net chunk_size w count other :
  net verification_url = Responds (mkPage (Some count) other) ->
  chunk_size <> 0 ->
  exists events,
    execute_tasks net chunk_size w
    = (Returned tt,
       mkWorld (collection w
                ++ flat_map (page_items net) (task_urls count chunk_size))
               (results w)
               (trace w ++ HttpGet verification_url :: events)).
Proof.
  intros Hnet Hchunk. unfold execute_tasks, bind.
  rewrite (create_tasks_responds _ _ _ _ _ Hnet Hchunk).
  fold (task_urls count chunk_size).
  destruct (run_tasks_effect net (task_urls count chunk_size)
              (traced w (HttpGet verification_url
                         :: map (fun p => CreateTask (url_template chunk_size p))
                                (requested_pages count chunk_size))))
    as [events ->].
  unfold traced; simpl. eexists. rewrite <- app_assoc. simpl. reflexivity.
Qed.

(** A document that brings no [_id] of its own: none of its paths is
    [_id] or lies under it.  The store gives such a document a fresh
    identifier, so that its insertion cannot clash with a stored
    document or with another document of its batch. *)
Definition without_id (d : document) : bool :=
  forallb (fun kv => negb (String.eqb (fst kv) "_id")
                     && negb (String.prefix "_id." (fst kv))) d.

(** X3. Once the verification envelope is decoded with a [count] (count and
    chunk size within the range of X1) and no document of the requested
    pages brings an [_id] of its own, [execute_tasks] returns normally
    whatever the page requests do, and the collection ends up holding what
    it held together with the [results] lists of the requested pages, in
    some order; a page whose request fails or whose envelope has no
    [results] adds nothing. *)
Theorem execute_tasks_stores_the_requested_pages :
  forall net chunk_size w count other,
    net verification_url = Responds (mkPage (Some count) other) ->
    0 <= count < 2 ^ 51 -> 0 < chunk_size < 2 ^ 51 ->
    (forall url d, In url (task_urls count chunk_size) ->
                   In d (page_items net url) -> without_id d = true) ->
    fst (execute_tasks net chunk_size w) = Returned tt
    /\ Permutation
         (collection (snd (execute_tasks net chunk_size w)))
         (collection w
          ++ flat_map (page_items net)
                      (map (url_template chunk_size)
                           (Py.range 1 (Py.round_div count chunk_size + 1))))
    /\ results (snd (execute_tasks net chunk_size w)) = results w.
Proof.
  intros net chunk_size w count other Hnet _ [Hchunk _] _.
  destruct (execute_tasks_effect net chunk_size w count other Hnet
              ltac:(lia)) as [events ->].
  repeat split. apply Permutation_refl.
Qed.

(** A catalogue of 1200 items in chunks of 1000 whose first page decodes:
    one page is requested and stored. *)
Lemma execute_tasks_stores_witness :
  let d : document := [("name", BStr "Анна Каренина")] in
  let net := fun url : string =>
               if String.eqb url verification_url
               then Responds (mkPage (Some 1200) None)
               else Responds (mkPage (Some 1200) (Some [d])) in
  Permutation (collection (snd (execute_tasks net 1000 (mkWorld [] [] []))))
              [d].
Proof.
  cbv zeta.
  refine (proj1 (proj2 (execute_tasks_stores_the_requested_pages
           (fun url : string =>
              if String.eqb url verification_url
              then Responds (mkPage (Some 1200) None)
              else Responds (mkPage (Some 1200)
                                    (Some [[("name", BStr "Анна Каренина")]])))
           1000 (mkWorld [] [] []) 1200 None eq_refl ltac:(lia) ltac:(lia)
           _))).
  intros url d [<- | []] [<- | []]. reflexivity.
Defined.

(** X4. The stored documents do not depend on the order in which the page
    tasks complete: when no document of the pages brings an [_id] of its
    own, taking the tasks of a run in any other order stores the same
    documents, up to their order in the collection. *)
Theorem page_tasks_commute :
  forall net urls order w,
    Permutation order urls ->
    (forall url d, In url urls -> In d (page_items net url) ->
                   without_id d = true) ->
    fst (for_each order (fetch_and_insert net) w) = Returned tt
    /\ Permutation
         (collection (snd (for_each order (fetch_and_insert net) w)))
         (collection (snd (for_each urls (fetch_and_insert net) w))).
Proof.
  intros net urls order w Hperm _.
  destruct (run_tasks_effect net order w) as [ev1 ->].
  destruct (run_tasks_effect net urls w) as [ev2 ->].
  simpl. split; [reflexivity|].
  apply Permutation_app_head. now apply Permutation_flat_map.
Qed.

Lemma page_tasks_commute_witness :
  let net := fun url : string =>
               Responds (mkPage None (Some [[("name", BStr url)]])) in
  Permutation
    (collection (snd (for_each ["b"; "a"] (fetch_and_insert net)
                               (mkWorld [] [] []))))
    (collection (snd (for_each ["a"; "b"] (fetch_and_insert net)
                               (mkWorld [] [] [])))).
Proof.
  cbv zeta.
  refine (proj2 (page_tasks_commute
                  (fun url => Responds (mkPage None (Some [[("name", BStr url)]])))
                  ["a"; "b"] ["b"; "a"] (mkWorld [] [] [])
                  (perm_swap "a" "b" []) _)).
  intros url d _ [<- | []]. reflexivity.
Defined.

(** X5. A catalogue of at most half a chunk is not loaded at all: the
    rounded page count is zero, no task is created and [execute_tasks]
    returns after the verification request with the collection as it was. *)
Theorem small_catalogue_is_not_loaded :
  forall net chunk_size w count other,
    net verification_url = Responds (mkPage (Some count) other) ->
    0 <= count -> 2 * count <= chunk_size -> 0 < chunk_size ->
    execute_tasks net chunk_size w
    = (Returned tt, traced w [HttpGet verification_url]).
Proof.
  intros net chunk_size w count other Hnet Hcount Hsmall Hchunk.
  assert (Hzero : Py.round_div count chunk_size = 0).
  { unfold Py.round_div.
    assert (Hneg : (chunk_size <? 0) = false) by (apply Z.ltb_ge; lia).
    rewrite Hneg, (Z.abs_eq chunk_size) by lia.
    assert (Hlt : count < chunk_size) by lia.
    rewrite (Z.div_small count chunk_size), (Z.mod_small count chunk_size)
      by lia.
    destruct (2 * count ?= chunk_size) eqn:Hc; try reflexivity.
    rewrite Z.compare_gt_iff in Hc. lia. }
  unfold execute_tasks, bind.
  rewrite (create_tasks_responds _ _ _ _ _ Hnet) by lia.
  unfold requested_pages. rewrite Hzero. reflexivity.
Qed.

Lemma small_catalogue_is_not_loaded_witness :
  execute_tasks (fun _ => Responds (mkPage (Some 400) (Some [[("name", BStr "x")]])))
                1000 (mkWorld [] [] [])
  = (Returned tt, traced (mkWorld [] [] []) [HttpGet verification_url]).
Proof.
  apply (small_catalogue_is_not_loaded
           (fun _ => Responds (mkPage (Some 400) (Some [[("name", BStr "x")]])))
           1000 (mkWorld [] [] []) 400 (Some [[("name", BStr "x")]]));
    [reflexivity | lia | lia | lia].
Defined.

(** X6. A decoded verification envelope without [count], and a zero chunk
    size, abort the run like a failed request: the [TypeError] or
    [ZeroDivisionError] of the division is caught, logged, and turned into
    [sys.exit(1)] before any task is created. *)
Theorem verification_without_count_or_chunk_aborts :
  forall net chunk_size w p,
    net verification_url = Responds p ->
    page_count p = None \/ chunk_size = 0 ->
    exists line,
      execute_tasks net chunk_size w
      = (SystemExit (ExitCode 1),
         traced w [HttpGet verification_url; LoggerError line]).
Proof.
  intros net chunk_size w p Hnet Hbad.
  unfold execute_tasks, create_tasks, get_total_pages, try_except, bind.
  rewrite (get_json_responds _ _ _ _ Hnet).
  destruct p as [[count|] other]; simpl.
  - destruct Hbad as [Hbad | ->]; [discriminate|]. simpl.
    unfold logger_error, emit, traced; simpl. eexists.
    rewrite <- app_assoc. reflexivity.
  - unfold logger_error, emit, traced; simpl. eexists.
    rewrite <- app_assoc. reflexivity.
Qed.

Lemma verification_without_count_witness :
  exists line,
    execute_tasks (fun _ => Responds (mkPage None None)) 1000 (mkWorld [] [] [])
    = (SystemExit (ExitCode 1),
       traced (mkWorld [] [] []) [HttpGet verification_url; LoggerError line]).
Proof.
  apply (verification_without_count_or_chunk_aborts
           (fun _ => Responds (mkPage None None)) 1000 (mkWorld [] [] [])
           (mkPage None None)); [reflexivity | left; reflexivity].
Defined.

(* ================================================================== *)
(** * Further properties of the store calls *)
(* ================================================================== *)

Lemma insert_docs_stores batch w :
  batch <> [] ->
  insert_docs (Some batch) w
  = (Returned tt,
     mkWorld (collection w ++ batch) (results w)
             (trace w ++ [InsertMany (Some batch);
                          LoggerInfo
                            (cat ["Добавлено ";
                                  Py.str_of_int (Z.of_nat (List.length batch));
                                  " документов"])])).
Proof.
  intros Hne. destruct batch as [|d batch]; [contradiction|].
  unfold insert_docs, insert_many. run_coro. unfold emit. simpl.
  now rewrite <- app_assoc.
Qed.

(** X7. [insert_docs] of a non-empty batch whose documents bring no [_id]
    of their own returns after one [insert_many] and one log line giving
    the size of the batch; the collection then holds what it held together
    with the batch, and is no longer empty. *)
Theorem insert_docs_stores_the_batch :
  forall batch w,
    batch <> [] ->
    forallb without_id batch = true ->
    let after := snd (insert_docs (Some batch) w) in
    fst (insert_docs (Some batch) w) = Returned tt
    /\ Permutation (collection after) (collection w ++ batch)
    /\ trace after
       = trace w ++ [InsertMany (Some batch);
                     LoggerInfo
                       (cat ["Добавлено ";
                             Py.str_of_int (Z.of_nat (List.length batch));
                             " документов"])]
    /\ fst (is_empty_collection after) = Returned false.
Proof.
  intros batch w Hne _ after. unfold after.
  rewrite (insert_docs_stores batch w Hne). cbn [fst snd collection trace].
  split; [reflexivity|]. split; [apply Permutation_refl|].
  split; [reflexivity|].
  unfold is_empty_collection, estimated_document_count. run_coro.
  rewrite length_app. f_equal. apply Z.eqb_neq.
  destruct batch; [contradiction | simpl; lia].
Qed.

Lemma insert_docs_stores_the_batch_witness :
  fst (is_empty_collection
         (snd (insert_docs (Some [[("name", BStr "Анна Каренина")]])
                           (mkWorld [] [] []))))
  = Returned false.
Proof.
  exact (proj2 (proj2 (proj2 (insert_docs_stores_the_batch
                  [[("name", BStr "Анна Каренина")]]
                  (mkWorld [] [] []) ltac:(discriminate) eq_refl)))).
Defined.

Lemma sort_rows_length ahead rows :
  List.length (Mongo.sort_rows ahead rows) = List.length rows.
Proof. apply Permutation_length, sort_rows_perm. Qed.

(** X9. The search and the count use the same filter: whenever
    [find_instance_stats] yields its rows and [count_docs] its number for
    the same field and pattern on the same collection, there are exactly as
    many rows as [count_docs] reports. *)
Theorem find_instance_stats_has_count_docs_rows :
  forall regex_search instance name w rows n,
    fst (find_instance_stats regex_search instance name w) = Returned rows ->
    fst (count_docs regex_search instance name w) = Returned n ->
    Z.of_nat (List.length rows) = n.
Proof.
  intros rx instance name w rows n Hrows Hn.
  injection Hrows as <-. injection Hn as <-.
  unfold instance_stats, find_sorted, count_documents, Mongo.limit_rows.
  now rewrite length_map, sort_rows_length.
Qed.

Lemma find_instance_stats_has_count_docs_rows_witness :
  let w := mkWorld [[("name", BStr "Дуэль"); ("reviews_count", BNum 3)];
                    [("name", BStr "Пиковая дама"); ("reviews_count", BNum 9)];
                    [("name", BStr "Дуэль"); ("reviews_count", BNum 7)]]
                   [] [] in
  let matcher := fun p s : string => String.eqb p s in
  exists rows,
    fst (find_instance_stats matcher "name" "Дуэль" w) = Returned rows
    /\ fst (count_docs matcher "name" "Дуэль" w) = Returned 2
    /\ Z.of_nat (List.length rows) = 2.
Proof.
  cbv zeta. eexists. split; [reflexivity|]. split; [reflexivity|].
  exact (find_instance_stats_has_count_docs_rows
           (fun p s => String.eqb p s) "name" "Дуэль"
           (mkWorld [[("name", BStr "Дуэль"); ("reviews_count", BNum 3)];
                     [("name", BStr "Пиковая дама"); ("reviews_count", BNum 9)];
                     [("name", BStr "Дуэль"); ("reviews_count", BNum 7)]]
                    [] [])
           _ 2 eq_refl eq_refl).
Defined.

Lemma get_field_project k fields (d : document) :
  get_field k (Mongo.project fields d)
  = if existsb (String.eqb k) fields then get_field k d else None.
Proof.
  unfold Mongo.project. induction d as [|[k' v] d IH]; simpl.
  - now destruct (existsb (String.eqb k) fields).
  - destruct (existsb (String.eqb k') fields) eqn:Hk'; simpl.
    + destruct (String.eqb k' k) eqn:Hkk.
      * apply String.eqb_eq in Hkk. subst k'. now rewrite Hk'.
      * exact IH.
    + destruct (String.eqb k' k) eqn:Hkk.
      * apply String.eqb_eq in Hkk. subst k'. rewrite Hk' in IH.
        now rewrite Hk'.
      * exact IH.
Qed.

Lemma field_or_null_project k fields (d : document) :
  existsb (String.eqb k) fields = true ->
  field_or_null k (Mongo.project fields d) = field_or_null k d.
Proof.
  intros H. unfold field_or_null. now rewrite get_field_project, H.
Qed.

Lemma StronglySorted_map {A B} (f : A -> B) (R : B -> B -> Prop) l :
  StronglySorted (fun a b => R (f a) (f b)) l -> StronglySorted R (map f l).
Proof.
  induction 1 as [|a l Hs IH Ha]; simpl; constructor; auto.
  rewrite Forall_map. exact Ha.
Qed.

(** X10. Whenever [find_instance_stats] yields its rows, every row is the
    projection of a stored document whose field matches the pattern, cut
    down to the four projected fields; and when no stored [reviews_count]
    is a string the rows come with the greatest [reviews_count] first. *)
Theorem find_instance_stats_rows_are_sorted_matches :
  forall regex_search instance name w rows,
    fst (find_instance_stats regex_search instance name w) = Returned rows ->
    (forall row, In row rows ->
       exists d, In d (collection w)
                 /\ regex_filter regex_search instance name d = true
                 /\ row = Mongo.project
                            ["name"; "uri"; "main_actor.cover_name";
                             "reviews_count"] d)
    /\ (forall row k, In row rows ->
          get_field k row <> None ->
          In k ["name"; "uri"; "main_actor.cover_name"; "reviews_count"])
    /\ (Forall (fun d => not_a_string (field_or_null "reviews_count" d))
               (collection w) ->
        StronglySorted
          (fun a b => Mongo.bson_ltb (field_or_null "reviews_count" a)
                                     (field_or_null "reviews_count" b) = false)
          rows).
Proof.
  intros rx instance name w rows Hrows. injection Hrows as <-.
  unfold instance_stats, find_sorted, Mongo.limit_rows.
  set (fields := ["name"; "uri"; "main_actor.cover_name"; "reviews_count"]).
  set (matching := filter (regex_filter rx instance name) (collection w)).
  set (sorted := Mongo.sort_rows (Mongo.comes_first "reviews_count" DESCENDING)
                                 matching).
  assert (Hrow : forall row, In row (map (Mongo.project fields) sorted) ->
                   exists d, In d (collection w)
                             /\ regex_filter rx instance name d = true
                             /\ row = Mongo.project fields d).
  { intros row Hin. apply in_map_iff in Hin. destruct Hin as (d & <- & Hd).
    apply (Permutation_in _ (sort_rows_perm _ matching)) in Hd.
    apply filter_In in Hd. destruct Hd. now exists d. }
  split; [exact Hrow|]. split.
  - intros row k Hin Hget. destruct (Hrow row Hin) as (d & _ & _ & ->).
    rewrite get_field_project in Hget.
    destruct (existsb (String.eqb k) fields) eqn:Hk; [|contradiction].
    apply existsb_exists in Hk. destruct Hk as (k' & Hk' & Heq).
    apply String.eqb_eq in Heq. now subst k'.
  - intros Hnum. apply StronglySorted_map.
    assert (Hm : Forall (fun d => not_a_string (field_or_null "reviews_count" d))
                        matching).
    { apply Forall_forall. intros d Hd. apply filter_In in Hd.
      rewrite Forall_forall in Hnum. now apply Hnum. }
    refine (StronglySorted_weaken _ _ _ _
              (sort_desc_sorted "reviews_count" matching Hm)).
    intros a b _ _ H.
    now rewrite !(field_or_null_project "reviews_count" fields) by reflexivity.
Qed.

Lemma find_instance_stats_rows_witness :
  StronglySorted
    (fun a b => Mongo.bson_ltb (field_or_null "reviews_count" a)
                               (field_or_null "reviews_count" b) = false)
    [[("name", BStr "Дуэль"); ("reviews_count", BNum 7)];
     [("name", BStr "Дуэль"); ("reviews_count", BNum 3)]].
Proof.
  refine (proj2 (proj2 (find_instance_stats_rows_are_sorted_matches
           (fun p s => String.eqb p s) "name" "Дуэль"
           (mkWorld [[("name", BStr "Дуэль"); ("reviews_count", BNum 3);
                      ("id", BNum 1)];
                     [("name", BStr "Дуэль"); ("reviews_count", BNum 7);
                      ("id", BNum 2)]]
                    [] [])
           _ eq_refl)) _).
  repeat constructor.
Defined.

(** The book queries: [find(...).sort(field, DESCENDING).limit(1)]. *)
Lemma find_top_spec regex_search docs projection field :
  Forall (fun d => not_a_string (field_or_null field d)) docs ->
  let rows := find_sorted regex_search docs None projection field (Some 1%nat) in
  (List.length rows <= 1)%nat
  /\ (rows = [] <-> docs = [])
  /\ forall row, In row rows ->
       exists top, In top docs
                   /\ row = Mongo.project projection top
                   /\ forall d, In d docs ->
                        Mongo.bson_ltb (field_or_null field top)
                                       (field_or_null field d) = false.
Proof.
  intros Hnum. cbv zeta. unfold find_sorted, Mongo.limit_rows.
  set (sorted := Mongo.sort_rows (Mongo.comes_first field DESCENDING) docs).
  assert (Hperm : Permutation sorted docs) by apply sort_rows_perm.
  assert (Hsorted :
            StronglySorted
              (fun a b => Mongo.bson_ltb (field_or_null field a)
                                         (field_or_null field b) = false)
              sorted)
    by exact (sort_desc_sorted field docs Hnum).
  destruct sorted as [|top rest] eqn:Hs.
  - apply Permutation_nil in Hperm. subst docs.
    split; [simpl; lia|]. split; [easy|]. intros row [].
  - split; [simpl; lia|]. split.
    + split; [discriminate|]. intros ->.
      apply Permutation_sym, Permutation_nil in Hperm. discriminate.
    + intros row [<- | []]. exists top.
      split; [apply (Permutation_in _ Hperm); now left|].
      split; [reflexivity|].
      intros d Hd. apply (Permutation_in _ (Permutation_sym Hperm)) in Hd.
      inversion Hsorted as [|? ? _ Hall]; subst.
      destruct Hd as [<- | Hd].
      * apply bson_ltb_irrefl. rewrite Forall_forall in Hnum.
        apply Hnum. apply (Permutation_in _ Hperm). now left.
      * rewrite Forall_forall in Hall. now apply Hall.
Qed.

(** X11. When no stored [global_rating] is a string,
    [find_highest_rated_book] yields at most one row, none only for an
    empty collection, and the row is the projection of a document whose
    [global_rating] no stored document exceeds. *)
Theorem find_highest_rated_book_returns_a_maximum :
  forall regex_search w,
    Forall (fun d => not_a_string (field_or_null "global_rating" d))
           (collection w) ->
    exists rows,
      fst (find_highest_rated_book regex_search w) = Returned rows
      /\ (List.length rows <= 1)%nat
      /\ (rows = [] <-> collection w = [])
      /\ forall row, In row rows ->
           exists top, In top (collection w)
             /\ row = Mongo.project
                        ["name"; "uri"; "main_author.cover_name";
                         "main_actor.cover_name"; "global_rating"] top
             /\ forall d, In d (collection w) ->
                  Mongo.bson_ltb (field_or_null "global_rating" top)
                                 (field_or_null "global_rating" d) = false.
Proof.
  intros rx w Hnum. eexists. split; [reflexivity|].
  exact (find_top_spec rx (collection w) _ "global_rating" Hnum).
Qed.

Lemma find_highest_rated_book_witness :
  exists rows,
    fst (find_highest_rated_book (fun _ _ => true)
           (mkWorld [[("name", BStr "А"); ("global_rating", BNum 3)];
                     [("name", BStr "Б"); ("global_rating", BNum 5)]] [] []))
    = Returned rows
    /\ (List.length rows <= 1)%nat.
Proof.
  destruct (find_highest_rated_book_returns_a_maximum
              (fun _ _ => true)
              (mkWorld [[("name", BStr "А"); ("global_rating", BNum 3)];
                        [("name", BStr "Б"); ("global_rating", BNum 5)]] [] [])
              ltac:(repeat constructor)) as (rows & Hrows & Hlen & _).
  exists rows. split; [exact Hrows | exact Hlen].
Defined.

(** X12. The same for [find_most_reviewed_book] and [reviews_count]. *)
Theorem find_most_reviewed_book_returns_a_maximum :
  forall regex_search w,
    Forall (fun d => not_a_string (field_or_null "reviews_count" d))
           (collection w) ->
    exists rows,
      fst (find_most_reviewed_book regex_search w) = Returned rows
      /\ (List.length rows <= 1)%nat
      /\ (rows = [] <-> collection w = [])
      /\ forall row, In row rows ->
           exists top, In top (collection w)
             /\ row = Mongo.project
                        ["name"; "uri"; "main_author.cover_name";
                         "main_actor.cover_name"; "reviews_count"] top
             /\ forall d, In d (collection w) ->
                  Mongo.bson_ltb (field_or_null "reviews_count" top)
                                 (field_or_null "reviews_count" d) = false.
Proof.
  intros rx w Hnum. eexists. split; [reflexivity|].
  exact (find_top_spec rx (collection w) _ "reviews_count" Hnum).
Qed.

Lemma find_most_reviewed_book_witness :
  exists rows,
    fst (find_most_reviewed_book (fun _ _ => true)
           (mkWorld [[("name", BStr "А"); ("reviews_count", BNum 3)];
                     [("name", BStr "Б"); ("reviews_count", BNum 5)]] [] []))
    = Returned rows
    /\ (List.length rows <= 1)%nat.
Proof.
  destruct (find_most_reviewed_book_returns_a_maximum
              (fun _ _ => true)
              (mkWorld [[("name", BStr "А"); ("reviews_count", BNum 3)];
                        [("name", BStr "Б"); ("reviews_count", BNum 5)]] [] [])
              ltac:(repeat constructor)) as (rows & Hrows & Hlen & _).
  exists rows. split; [exact Hrows | exact Hlen].
Defined.

(* ================================================================== *)
(** * Further properties of the lookup *)
(* ================================================================== *)

Lemma try_combinations_db_manager regex_search instance query_string
      combinations :
  forall w,
    try_combinations (db_manager regex_search) instance query_string
                     combinations w
    = try_combinations
        (oracle_manager (count_documents regex_search (collection w))
                        (instance_stats regex_search (collection w)))
        instance query_string combinations w.
Proof.
  induction combinations as [|c rest IH]; intros w; [reflexivity|].
  cbn [try_combinations]. unfold bind.
  cbn [db_manager oracle_manager dm_count_docs dm_find_instance_stats].
  unfold count_docs, find_instance_stats, bind, emit, get_collection, ret.
  cbn [collection].
  destruct (0 <? count_documents regex_search (collection w) instance
                                 (Py.join " " c)).
  - reflexivity.
  - exact (IH (mkWorld (collection w) (results w)
                       (trace w ++ [CountDocuments instance (Py.join " " c)]))).
Qed.

Lemma get_instance_queryset_db_manager regex_search instance args w :
  get_instance_queryset (db_manager regex_search) instance args w
  = get_instance_queryset
      (oracle_manager (count_documents regex_search (collection w))
                      (instance_stats regex_search (collection w)))
      instance args w.
Proof.
  unfold get_instance_queryset.
  destruct (9 <? List.length args)%nat; [reflexivity|].
  apply try_combinations_db_manager.
Qed.

(** The store calls of a lookup are counts and searches on the field, for
    patterns of the list. *)
Lemma probes_events count instance patterns e :
  In e (probes count instance patterns) ->
  exists p, In p patterns
            /\ (e = CountDocuments instance p
                \/ e = Find (Some (instance, p)) "reviews_count").
Proof.
  induction patterns as [|q rest IH]; simpl; [easy|].
  intros [<- | Hin].
  - exists q. auto.
  - destruct (0 <? count instance q).
    + destruct Hin as [<- | []]. exists q. auto.
    + destruct (IH Hin) as (p & Hp & He). exists p. auto.
Qed.

(** X13. With the real manager, whenever a lookup returns, it has read the
    store only -- the collection is as before, and the calls made are
    counts and searches on the field -- and it hands back the original
    query string; a cursor it returns is never empty, and the nothing-found
    message is returned only when no pattern tried has a match. *)
Theorem lookup_reads_only_and_returns_nonempty_cursor :
  forall regex_search instance args w qs text after,
    get_instance_queryset (db_manager regex_search) instance args w
    = (Returned (qs, text), after) ->
    text = Py.join " " args
    /\ collection after = collection w
    /\ results after = results w
    /\ (exists events,
           trace after = trace w ++ events
           /\ forall e, In e events ->
                exists p, e = CountDocuments instance p
                          \/ e = Find (Some (instance, p)) "reviews_count")
    /\ (forall rows, qs = QCursor rows -> rows <> [])
    /\ (forall message, qs = QMessage message ->
          message = NOTHING_FOUND_MSG
          /\ Forall (fun p => count_documents regex_search (collection w)
                                              instance p <= 0)
                    (lookup_patterns instance args)).
Proof.
  intros rx instance args w qs text after Hrun.
  destruct (Nat.le_gt_cases (List.length args) 9) as [Hlen | Hlong].
  2: { rewrite (get_instance_queryset_too_long _ _ _ _ Hlong) in Hrun.
       discriminate. }
  rewrite get_instance_queryset_db_manager in Hrun.
  rewrite get_instance_queryset_accepted in Hrun by exact Hlen.
  set (count := count_documents rx (collection w)) in *.
  set (patterns := lookup_patterns instance args) in *.
  injection Hrun as Hqs <-. unfold resolve_over in Hqs.
  split; [|split; [reflexivity|split; [reflexivity|split]]].
  - destruct (first_match count instance patterns); now injection Hqs.
  - exists (probes count instance patterns). split; [reflexivity|].
    intros e He. destruct (probes_events _ _ _ _ He) as (p & _ & Hp).
    now exists p.
  - destruct (first_match count instance patterns) as [p|] eqn:Hfirst;
      injection Hqs as <- <-.
    + split; [|discriminate].
      intros rows [= <-] Hempty.
      destruct (first_match_split _ _ _ _ Hfirst) as (_ & _ & _ & Hpos & _).
      unfold count, count_documents in Hpos.
      apply (f_equal (@List.length document)) in Hempty.
      unfold instance_stats, find_sorted, Mongo.limit_rows in Hempty.
      rewrite length_map, sort_rows_length in Hempty. simpl in Hempty. lia.
    + split; [discriminate|].
      intros message [= <-]. split; [reflexivity|].
      now apply first_match_none.
Qed.

Lemma lookup_reads_only_witness :
  let w := mkWorld [[("name", BStr "Дуэль")]] [] [] in
  let run := get_instance_queryset (db_manager (fun p s => String.eqb p s))
                                   "name" ["Дуэль"] w in
  fst run = Returned (QCursor [[("name", BStr "Дуэль")]], "Дуэль")
  /\ collection (snd run) = collection w.
Proof.
  cbv zeta. split; [reflexivity|].
  exact (proj1 (proj2 (lookup_reads_only_and_returns_nonempty_cursor
                         (fun p s => String.eqb p s) "name" ["Дуэль"]
                         (mkWorld [[("name", BStr "Дуэль")]] [] [])
                         _ _ _ eq_refl))).
Defined.

(** The number of [r]-length arrangements of [n] elements. *)
Fixpoint arrangements (n r : nat) : nat :=
  match r with
  | O => 1
  | S r' => n * arrangements (n - 1) r'
  end.

Lemma picks_length {A} (l : list A) : List.length (Py.picks l) = List.length l.
Proof. induction l; simpl; [|rewrite length_map]; auto. Qed.

Lemma picks_rest_length {A} (l : list A) p :
  In p (Py.picks l) -> List.length (snd p) = (List.length l - 1)%nat.
Proof.
  destruct p as [x rest]. intros Hin. apply picks_spec in Hin.
  destruct Hin as (l1 & l2 & -> & ->). simpl.
  rewrite !length_app. simpl. lia.
Qed.

Lemma flat_map_constant_length {A B} (f : A -> list B) k l :
  (forall x, In x l -> List.length (f x) = k) ->
  List.length (flat_map f l) = (List.length l * k)%nat.
Proof.
  induction l as [|x l IH]; intros H; simpl; auto.
  rewrite length_app, (H x (or_introl eq_refl)), IH; auto.
  intros; apply H; now right.
Qed.

Lemma permutations_length {A} r : forall pool : list A,
  List.length (Py.permutations pool r) = arrangements (List.length pool) r.
Proof.
  induction r as [|r IH]; intros pool; simpl; auto.
  rewrite (flat_map_constant_length _
             (arrangements (List.length pool - 1) r)).
  - now rewrite picks_length.
  - intros p Hp. rewrite length_map, IH. now rewrite (picks_rest_length _ _ Hp).
Qed.

Lemma arrangements_full n : arrangements n n = fact n.
Proof.
  induction n as [|n IH]; simpl; auto.
  rewrite Nat.sub_0_r, IH. reflexivity.
Qed.

Lemma probes_length count instance patterns :
  (List.length (probes count instance patterns)
   <= List.length patterns + 1)%nat.
Proof.
  induction patterns as [|p rest IH]; simpl; [lia|].
  destruct (0 <? count instance p); simpl; lia.
Qed.

(** X14. A lookup of [n <= 9] words (other than a two-word author query)
    has [n!] patterns to try, so it makes at most [n!] count calls and one
    search: at most 362881 store calls. *)
Theorem lookup_makes_at_most_factorial_calls :
  forall count rows instance args w,
    (List.length args <= 9)%nat ->
    String.eqb instance "author" && (List.length args =? 2)%nat = false ->
    exists calls,
      snd (get_instance_queryset (oracle_manager count rows) instance args w)
      = traced w calls
      /\ List.length (Py.permutations args (List.length args))
         = fact (List.length args)
      /\ (List.length calls <= fact (List.length args) + 1)%nat
      /\ Z.of_nat (List.length calls) <= 362881.
Proof.
  intros count rows instance args w Hlen Hnot.
  rewrite get_instance_queryset_accepted by exact Hlen.
  assert (Hpat : lookup_patterns instance args
                 = map (Py.join " ") (Py.permutations args (List.length args))).
  { unfold lookup_patterns.
    destruct args as [|a [|b [|c args]]]; try reflexivity.
    destruct (String.eqb instance "author"); [discriminate | reflexivity]. }
  rewrite Hpat.
  assert (Hn : List.length (Py.permutations args (List.length args))
               = fact (List.length args)).
  { now rewrite permutations_length, arrangements_full. }
  eexists. split; [reflexivity|]. split; [exact Hn|].
  assert (Hcalls : (List.length
                      (probes count instance
                         (map (Py.join " ")
                              (Py.permutations args (List.length args))))
                    <= fact (List.length args) + 1)%nat).
  { eapply Nat.le_trans; [apply probes_length|].
    rewrite length_map, Hn. lia. }
  split; [exact Hcalls|].
  pose proof (fact_le _ _ Hlen) as Hfact.
  assert (Hnine : Z.of_nat (fact 9) = 362880) by (vm_compute; reflexivity).
  apply Nat2Z.inj_le in Hcalls, Hfact.
  rewrite Nat2Z.inj_add in Hcalls. rewrite Hnine in Hfact.
  change (Z.of_nat 1) with 1 in Hcalls. lia.
Qed.

Lemma lookup_makes_at_most_factorial_calls_witness :
  exists calls,
    snd (get_instance_queryset (only_pattern "в а б") "name" ["а"; "б"; "в"]
                               (mkWorld [] [] []))
    = traced (mkWorld [] [] []) calls
    /\ Z.of_nat (List.length calls) <= 362881.
Proof.
  destruct (lookup_makes_at_most_factorial_calls
              (fun _ p => if String.eqb p "в а б" then 1 else 0)
              (fun _ p => [[("name", BStr p)]])
              "name" ["а"; "б"; "в"] (mkWorld [] [] [])
              ltac:(simpl; lia) eq_refl) as (calls & Hrun & _ & _ & Hmax).
  exists calls. split; [exact Hrun | exact Hmax].
Defined.

(* ================================================================== *)
(** * Further properties of the entry point *)
(* ================================================================== *)


Lemma main_load_run net regex_search args w count other :
  load args = true ->
  collection w = [] ->
  net verification_url = Responds (mkPage (Some count) other) ->
  exists events,
    main net regex_search args w
    = (Returned tt,
       mkWorld (flat_map (page_items net) (task_urls count fetcher_chunk_size))
               (results w) (trace w ++ events)).
Proof.
  intros Hload Hempty Hnet.
  rewrite (main_load_on_empty_collection _ _ _ _ Hload Hempty).
  unfold bind.
  destruct (execute_tasks_effect net fetcher_chunk_size
              (traced w [EstimatedDocumentCount]) count other Hnet
              ltac:(discriminate)) as [events ->].
  unfold console_log, emit, traced; simpl. rewrite Hempty. simpl.
  eexists. rewrite <- !app_assoc. reflexivity.
Qed.

(** X15. [--load] on an empty collection whose verification envelope
    carries a [count] (not negative, below 2^51), when no document of the
    requested pages brings an [_id] of its own, returns normally, and the
    collection then holds the [results] of the requested pages of 1000, in
    some order. *)
Theorem main_load_fills_an_empty_collection :
  forall net regex_search args w count other,
    load args = true ->
    collection w = [] ->
    net verification_url = Responds (mkPage (Some count) other) ->
    0 <= count < 2 ^ 51 ->
    (forall url d, In url (task_urls count 1000) ->
                   In d (page_items net url) -> without_id d = true) ->
    fst (main net regex_search args w) = Returned tt
    /\ Permutation
         (collection (snd (main net regex_search args w)))
         (flat_map (page_items net)
                   (map (url_template 1000)
                        (Py.range 1 (Py.round_div count 1000 + 1)))).
Proof.
  intros net rx args w count other Hload Hempty Hnet _ _.
  destruct (main_load_run net rx args w count other Hload Hempty Hnet)
    as [events ->].
  split; [reflexivity | apply Permutation_refl].
Qed.

Lemma main_load_fills_witness :
  let net := fun url : string =>
               if String.eqb url verification_url
               then Responds (mkPage (Some 1200) None)
               else Responds (mkPage (Some 1200)
                                     (Some [[("name", BStr "Анна Каренина")]])) in
  Permutation
    (collection (snd (main net (fun _ _ => true)
                           (mkArgs true false false None None false)
                           (mkWorld [] [] []))))
    [[("name", BStr "Анна Каренина")]].
Proof.
  cbv zeta.
  refine (proj2 (main_load_fills_an_empty_collection
           (fun url : string =>
              if String.eqb url verification_url
              then Responds (mkPage (Some 1200) None)
              else Responds (mkPage (Some 1200)
                                    (Some [[("name", BStr "Анна Каренина")]])))
           (fun _ _ => true) (mkArgs true false false None None false)
           (mkWorld [] [] []) 1200 None eq_refl eq_refl eq_refl
           ltac:(lia) _)).
  intros url d [<- | []] [<- | []]. reflexivity.
Defined.



(** X17. [--drop_collection] (without [--load]) empties the collection,
    whatever it held, and logs the name of the collection; a [--load] run
    on the world it leaves is not refused but goes on to the fetcher. *)
Theorem drop_collection_empties_and_unblocks_load :
  forall net regex_search drop_args load_args w,
    load drop_args = false ->
    drop_collection_flag drop_args = true ->
    load load_args = true ->
    let dropped := snd (main net regex_search drop_args w) in
    main net regex_search drop_args w
    = (Returned tt,
       mkWorld [] (results w)
               (trace w ++
                [DropCollection;
                 ConsoleLog "Все документы коллекции [green bold]`test_database.test_collection`[/green bold] успешно удалены"]))
    /\ main net regex_search load_args dropped
       = bind (execute_tasks net fetcher_chunk_size)
              (fun _ => console_log "Время заполнения базы данных в секундах: ")
              (traced dropped [EstimatedDocumentCount]).
Proof.
  intros net rx drop_args load_args w Hnoload Hdrop Hload dropped.
  assert (Hrun : main net rx drop_args w
                 = (Returned tt,
                    mkWorld [] (results w)
                      (trace w ++
                       [DropCollection;
                        ConsoleLog "Все документы коллекции [green bold]`test_database.test_collection`[/green bold] успешно удалены"]))).
  { unfold main. rewrite Hnoload, Hdrop. unfold drop_collection. run_coro.
    unfold emit; simpl. now rewrite <- app_assoc. }
  split; [exact Hrun|].
  apply main_load_on_empty_collection; [exact Hload|].
  unfold dropped. now rewrite Hrun.
Qed.

Lemma drop_collection_empties_witness :
  collection (snd (main (fun _ => GetRaises (mkExc ClientError "offline"))
                        (fun _ _ => true)
                        (mkArgs false true false None None false)
                        (mkWorld [[("name", BStr "Анна Каренина")]] [] [])))
  = [].
Proof.
  exact (f_equal (fun r => collection (snd r))
           (proj1 (drop_collection_empties_and_unblocks_load
                     (fun _ => GetRaises (mkExc ClientError "offline"))
                     (fun _ _ => true)
                     (mkArgs false true false None None false)
                     (mkArgs true false false None None false)
                     (mkWorld [[("name", BStr "Анна Каренина")]] [] [])
                     eq_refl eq_refl eq_refl))).
Defined.

Lemma lookup_patterns_plain instance args :
  String.eqb instance "author" = false ->
  lookup_patterns instance args
  = map (Py.join " ") (Py.permutations args (List.length args)).
Proof.
  intros Hnot. unfold lookup_patterns. rewrite Hnot.
  now destruct args as [|a [|b [|c args]]].
Qed.

Lemma format1_nothing_found arg :
  format1 NOTHING_FOUND_MSG arg
  = String.append "По запросу " (String.append arg " ничего не найдено!").
Proof. reflexivity. Qed.

(** The text [display_empty_qs_message] prints for a query string. *)
Definition nothing_found_text (query_string : string) : string :=
  String.append "[bold red]Внимание! [/bold red]По запросу [bold green]`"
    (String.append query_string "`[/bold green] ничего не найдено!").

Lemma string_append_assoc (a b c : string) :
  String.append (String.append a b) c = String.append a (String.append b c).
Proof. induction a as [|ch a IH]; simpl; [reflexivity | now rewrite IH]. Qed.

Lemma display_empty_qs_message_text query_string w :
  display_empty_qs_message NOTHING_FOUND_MSG query_string w
  = (Returned tt, traced w [ConsolePrint (nothing_found_text query_string)]).
Proof.
  unfold display_empty_qs_message, console_print, emit, traced.
  rewrite format1_nothing_found. do 4 f_equal.
  unfold nothing_found_text, cat. cbn [Py.join String.append].
  now rewrite string_append_assoc.
Qed.

(** The generator starts with the pool as it stands. *)
Lemma permutations_head {A} (pool : list A) :
  exists rest, Py.permutations pool (List.length pool) = pool :: rest.
Proof.
  induction pool as [|x pool [rest IH]]; [now exists []|].
  cbn [List.length Py.permutations Py.picks flat_map fst snd].
  rewrite IH. cbn [map app]. eexists. reflexivity.
Qed.

(** X18. An author lookup from the command line reads the store only, and
    every store call it makes is a count or a search on
    [main_author.cover_name] for a space-joined rearrangement of exactly
    the words given: the patronymic fragment is never added, also for two
    words.  Whatever else the run adds to the trace is console output.
    With at most nine words the first call is the count for the words as
    they were typed; with more than nine no call is made. *)
Theorem main_author_lookup :
  forall net regex_search args word words w,
    load args = false -> drop_collection_flag args = false ->
    stats args = false ->
    author args = Some (word :: words) ->
    let after := snd (main net regex_search args w) in
    collection after = collection w
    /\ exists events,
        trace after = trace w ++ events
        /\ (forall e, In e events ->
             (exists text, e = ConsolePrint text)
             \/ (exists c,
                    Permutation c (word :: words)
                    /\ (e = CountDocuments "main_author.cover_name"
                                           (Py.join " " c)
                        \/ e = Find (Some ("main_author.cover_name",
                                           Py.join " " c))
                                    "reviews_count")))
        /\ ((List.length (word :: words) <= 9)%nat ->
            exists rest,
              events = CountDocuments "main_author.cover_name"
                                      (Py.join " " (word :: words)) :: rest)
        /\ ((9 < List.length (word :: words))%nat -> events = []).
Proof.
  intros net rx args word words w Hload Hdrop Hstats Hauthor after.
  assert (Hmain :
            main net rx args w
            = bind (get_instance_queryset (db_manager rx)
                      "main_author.cover_name" (word :: words))
                   (fun qh =>
                      bind (create_rich_table (fst qh) (snd qh))
                           (fun table =>
                              console_print (cat ["Table("; fst table; ")"])))
                   w).
  { unfold main. now rewrite Hload, Hdrop, Hstats, Hauthor. }
  destruct (Nat.le_gt_cases (List.length (word :: words)) 9) as [Hlen | Hlong].
  2: { (* more than nine words: nothing is called *)
       unfold after. rewrite Hmain. unfold bind.
       rewrite (get_instance_queryset_too_long _ _ _ _ Hlong).
       split; [reflexivity|]. exists [].
       split; [cbn [snd]; now rewrite app_nil_r|].
       split; [intros e []|]. split; [intros Hle; lia | reflexivity]. }
  set (patterns := map (Py.join " ")
                       (Py.permutations (word :: words)
                                        (List.length (word :: words)))).
  set (count := count_documents rx (collection w)).
  set (calls := probes count "main_author.cover_name" patterns).
  assert (Hcalls : forall e, In e calls ->
            exists c,
              Permutation c (word :: words)
              /\ (e = CountDocuments "main_author.cover_name" (Py.join " " c)
                  \/ e = Find (Some ("main_author.cover_name", Py.join " " c))
                              "reviews_count")).
  { intros e He. destruct (probes_events _ _ _ _ He) as (p & Hp & Hev).
    apply in_map_iff in Hp. destruct Hp as (c & <- & Hc).
    exists c. split; [now apply permutations_full | exact Hev]. }
  assert (Hlookup :
            get_instance_queryset (db_manager rx) "main_author.cover_name"
                                  (word :: words) w
            = (Returned (resolve_over count
                           (instance_stats rx (collection w))
                           "main_author.cover_name"
                           (Py.join " " (word :: words)) patterns),
               traced w calls)).
  { rewrite get_instance_queryset_db_manager.
    rewrite get_instance_queryset_accepted by exact Hlen.
    now rewrite (lookup_patterns_plain "main_author.cover_name" _ eq_refl). }
  assert (Hrun :
            exists outcome text,
              main net rx args w
              = (outcome, traced w (calls ++ [ConsolePrint text]))).
  { rewrite Hmain. unfold bind at 1. rewrite Hlookup. unfold resolve_over.
    destruct (first_match count "main_author.cover_name" patterns) as [p|].
    - cbn [fst snd create_rich_table]. unfold bind, ret, console_print,
        emit, traced. cbn [collection results trace].
      do 2 eexists. rewrite <- app_assoc. reflexivity.
    - cbn [fst snd create_rich_table]. unfold bind.
      rewrite display_empty_qs_message_text. unfold sys_exit.
      rewrite traced_app. do 2 eexists. reflexivity. }
  destruct Hrun as (outcome & text & Hrun). unfold after. rewrite Hrun.
  split; [reflexivity|].
  exists (calls ++ [ConsolePrint text]). split; [reflexivity|].
  split; [|split].
  - intros e He. apply in_app_or in He. destruct He as [He | [<- | []]].
    + right. now apply Hcalls.
    + left. now exists text.
  - intros _. unfold calls, patterns.
    destruct (permutations_head (word :: words)) as [rest ->].
    cbn [map probes app]. eexists. reflexivity.
  - intros Hlong. lia.
Qed.

Lemma main_author_lookup_witness :
  let w := mkWorld [[("main_author.cover_name", BStr "Лев Толстой")]] [] [] in
  collection
    (snd (main (fun _ => GetRaises (mkExc ClientError "offline"))
               (fun _ _ => false)
               (mkArgs false false false (Some ["Лев"; "Толстой"]) None false)
               w))
  = collection w.
Proof.
  cbv zeta.
  exact (proj1 (main_author_lookup
                  (fun _ => GetRaises (mkExc ClientError "offline"))
                  (fun _ _ => false)
                  (mkArgs false false false (Some ["Лев"; "Толстой"]) None false)
                  "Лев" ["Толстой"]
                  (mkWorld [[("main_author.cover_name", BStr "Лев Толстой")]]
                           [] [])
                  eq_refl eq_refl eq_refl eq_refl)).
Defined.

(* ================================================================== *)
(** * Further properties of the panel queries *)
(* ================================================================== *)

(** X19. On an empty collection the total is 0 and each of the six
    coroutine queries yields no row, so [_await_coroutine_query] appends
    nothing to [results] for any of them. *)
Theorem panel_queries_on_empty_collection :
  forall regex_search w,
    collection w = [] ->
    fst (find_books_total w) = Returned 0
    /\ Forall (fun query =>
                 fst (query w) = Returned []
                 /\ results (snd (_await_coroutine_query query w)) = results w)
              (panel_coroutine_queries regex_search).
Proof.
  intros rx w Hempty. destruct w as [docs res tr]. simpl in Hempty. subst docs.
  split; [reflexivity|].
  repeat constructor.
Qed.

Lemma panel_queries_on_empty_collection_witness :
  fst (find_books_total (mkWorld [] [] [])) = Returned 0.
Proof.
  exact (proj1 (panel_queries_on_empty_collection
                  (fun _ _ => true) (mkWorld [] [] []) eq_refl)).
Defined.

Lemma members_of_nonempty id_path k docs :
  members_of id_path k docs <> [] ->
  exists d, In d docs /\ Mongo.bson_eqb k (field_or_null id_path d) = true.
Proof.
  unfold members_of. intros Hne.
  destruct (filter _ docs) as [|d rest] eqn:Hf; [contradiction|].
  assert (Hin : In d (filter
                        (fun d => Mongo.bson_eqb k (field_or_null id_path d))
                        docs)) by (rewrite Hf; now left).
  apply filter_In in Hin. now exists d.
Qed.

(** With a single contributor there is at most one group row. *)
Lemma single_contributor_ranking id_path count_field docs ranking :
  contributor_ranking id_path count_field docs ranking ->
  (forall d d', In d docs -> In d' docs ->
                Mongo.bson_eqb (field_or_null id_path d)
                               (field_or_null id_path d') = true) ->
  second_only ranking = [].
Proof.
  intros [[Hnd Hone Hne _] _ _] Hsame.
  destruct ranking as [|a [|b rest]]; try reflexivity.
  exfalso.
  assert (Ha : In a (a :: b :: rest)) by now left.
  assert (Hb : In b (a :: b :: rest)) by (right; now left).
  destruct (members_of_nonempty _ _ _ (Hne a Ha)) as (d & Hd & Had).
  destruct (members_of_nonempty _ _ _ (Hne b Hb)) as (d' & Hd' & Hbd).
  assert (Hab : Mongo.bson_eqb (row_id a) (row_id b) = true).
  { apply (bson_eqb_trans _ _ _ Had).
    apply (bson_eqb_trans _ _ _ (Hsame d d' Hd Hd')).
    now rewrite bson_eqb_sym. }
  pose proof (Hone a b Ha Hb Hab) as Heq. subst b.
  inversion Hnd as [|? ? Hnotin _]; subst. apply Hnotin. now left.
Qed.

(** X20. In a catalogue whose documents all have the same author (or none
    at all), [find_most_prolific_author] yields no row -- the only group
    is the one skipped -- and [_await_coroutine_query] then appends nothing
    to [results] for it. *)
Theorem most_prolific_author_needs_two_authors :
  forall w,
    (forall d d', In d (collection w) -> In d' (collection w) ->
        Mongo.bson_eqb (field_or_null "main_author.cover_name" d)
                       (field_or_null "main_author.cover_name" d') = true) ->
    fst (find_most_prolific_author w) = Returned []
    /\ results (snd (_await_coroutine_query find_most_prolific_author w))
       = results w.
Proof.
  intros w Hsame.
  destruct (prolific_pipeline_spec "main_author.cover_name" "num_books"
              "main_author.uri" (collection w) eq_refl)
    as (ranking & Hranking & Hrun).
  assert (Hnone : Mongo.run_pipeline most_prolific_author_pipeline (collection w)
                  = []).
  { unfold most_prolific_author_pipeline. rewrite Hrun.
    exact (single_contributor_ranking _ _ _ _ Hranking Hsame). }
  unfold _await_coroutine_query, bind, find_most_prolific_author.
  rewrite aggregate_run, Hnone. split; reflexivity.
Qed.

Lemma most_prolific_author_needs_two_authors_witness :
  fst (find_most_prolific_author
         (mkWorld [[("main_author.cover_name", BStr "Чехов")];
                   [("main_author.cover_name", BStr "Чехов")]] [] []))
  = Returned [].
Proof.
  refine (proj1 (most_prolific_author_needs_two_authors
                   (mkWorld [[("main_author.cover_name", BStr "Чехов")];
                             [("main_author.cover_name", BStr "Чехов")]] [] [])
                   _)).
  simpl. intros d d' [<- | [<- | []]] [<- | [<- | []]]; reflexivity.
Defined.

(* ================================================================== *)
(** * The task URLs *)
(* ================================================================== *)

From Stdlib Require DecimalPos DecimalZ.

Lemma to_int_not_nil z : Z.to_int z <> Decimal.Pos Decimal.Nil
                         /\ Z.to_int z <> Decimal.Neg Decimal.Nil.
Proof.
  destruct z as [|p|p]; simpl; split; try discriminate;
    intros [= H]; now apply (DecimalPos.Unsigned.to_uint_nonnil p).
Qed.

Lemma str_of_int_inj a b : Py.str_of_int a = Py.str_of_int b -> a = b.
Proof.
  unfold Py.str_of_int. intros H.
  apply DecimalZ.to_int_inj.
  destruct (to_int_not_nil a) as [Ha1 Ha2], (to_int_not_nil b) as [Hb1 Hb2].
  pose proof (NilZero.isi _ Ha1 Ha2) as Ia.
  pose proof (NilZero.isi _ Hb1 Hb2) as Ib.
  rewrite H in Ia. rewrite Ia in Ib. now injection Ib.
Qed.

Lemma string_append_inj_r (a x y : string) :
  String.append a x = String.append a y -> x = y.
Proof.
  induction a as [|c a IH]; simpl; auto. intros [= H]. auto.
Qed.

Lemma url_template_inj limit p q :
  url_template limit p = url_template limit q -> p = q.
Proof.
  unfold url_template, cat. cbn [Py.join]. intros H.
  apply str_of_int_inj.
  repeat (apply string_append_inj_r in H). exact H.
Qed.

(** X21. A run never builds two tasks for the same URL: with [count] and
    chunk size in the range of X1, the URLs of [create_tasks] are pairwise
    distinct, one per page number from 1 up to the rounded page count. *)
Theorem create_tasks_urls_are_distinct :
  forall net chunk_size w count other,
    net verification_url = Responds (mkPage (Some count) other) ->
    0 <= count < 2 ^ 51 -> 0 < chunk_size < 2 ^ 51 ->
    exists task_list,
      fst (create_tasks net chunk_size w) = Returned task_list
      /\ NoDup task_list
      /\ forall url, In url task_list <->
           exists p, 1 <= p <= Py.round_div count chunk_size
                     /\ url = url_template chunk_size p.
Proof.
  intros net chunk_size w count other Hnet _ [Hchunk _].
  rewrite (create_tasks_responds _ _ _ _ _ Hnet) by lia.
  eexists. split; [reflexivity|]. split.
  - apply NoDup_map_NoDup_ForallPairs.
    + intros p q _ _. apply url_template_inj.
    + unfold requested_pages, Py.range.
      apply NoDup_map_NoDup_ForallPairs; [|apply seq_NoDup].
      intros i j _ _ H. lia.
  - intros url. rewrite in_map_iff. unfold requested_pages. split.
    + intros (p & <- & Hp). apply range_In in Hp. exists p. split; [lia | auto].
    + intros (p & Hp & ->). exists p. split; auto. apply range_In. lia.
Qed.

Lemma create_tasks_urls_are_distinct_witness :
  exists task_list,
    fst (create_tasks (fun _ => Responds (mkPage (Some 3400) None)) 1000
                      (mkWorld [] [] []))
    = Returned task_list
    /\ NoDup task_list.
Proof.
  destruct (create_tasks_urls_are_distinct
              (fun _ => Responds (mkPage (Some 3400) None)) 1000
              (mkWorld [] [] []) 3400 None eq_refl ltac:(lia) ltac:(lia))
    as (task_list & Hrun & Hnd & _).
  exists task_list. split; [exact Hrun | exact Hnd].
Defined.

(* ================================================================== *)
(** * Instances of the entry-point lemmas *)
(* ================================================================== *)

Lemma fetch_and_insert_unusable_results_witness :
  fetch_and_insert (fun _ => Responds (mkPage (Some 2500) (Some [])))
                   "https://zvukislov.ru/api/audiobooks/?limit=1000&page=3"
                   (mkWorld [] [] [])
  = (Returned tt,
     traced (mkWorld [] [] [])
       [HttpGet "https://zvukislov.ru/api/audiobooks/?limit=1000&page=3";
        InsertMany (Some []);
        LoggerError
          (fetch_error_line
             "https://zvukislov.ru/api/audiobooks/?limit=1000&page=3"
             (mkExc TypeError "documents must be a non-empty list"))]).
Proof.
  apply (fetch_and_insert_unusable_results
           (fun _ => Responds (mkPage (Some 2500) (Some [])))
           "https://zvukislov.ru/api/audiobooks/?limit=1000&page=3"
           (mkWorld [] [] []) (Some 2500) (Some []));
    [reflexivity | right; reflexivity].
Defined.

Lemma main_load_verification_failure_witness :
  fst (main (fun _ => GetRaises (mkExc ClientError "offline"))
            (fun _ _ => true)
            (mkArgs true false false None None false)
            (mkWorld [] [] []))
  = SystemExit (ExitCode 1).
Proof.
  exact (f_equal fst
           (main_load_verification_failure
              (fun _ => GetRaises (mkExc ClientError "offline"))
              (fun _ _ => true)
              (mkArgs true false false None None false)
              (mkWorld [] [] []) (mkExc ClientError "offline")
              eq_refl eq_refl (fetch_failure_get _))).
Defined.

Lemma main_too_long_author_query_witness :
  fst (main (fun _ => GetRaises (mkExc ClientError "offline"))
            (fun _ _ => true)
            (mkArgs false false false
                    (Some ["a"; "b"; "c"; "d"; "e"; "f"; "g"; "h"; "i"; "j"])
                    None false)
            (mkWorld [] [] []))
  = SystemExit (ExitMessage TOO_LONG_QUERY_MSG).
Proof.
  exact (f_equal fst
           (main_too_long_author_query
              (fun _ => GetRaises (mkExc ClientError "offline"))
              (fun _ _ => true)
              (mkArgs false false false
                      (Some ["a"; "b"; "c"; "d"; "e"; "f"; "g"; "h"; "i"; "j"])
                      None false)
              ["a"; "b"; "c"; "d"; "e"; "f"; "g"; "h"; "i"; "j"]
              (mkWorld [] [] [])
              eq_refl eq_refl eq_refl eq_refl ltac:(simpl; lia))).
Defined.

Lemma main_stats_raises_witness :
  fst (main (fun _ => GetRaises (mkExc ClientError "offline"))
            (fun _ _ => true)
            (mkArgs false false true None None false)
            (mkWorld [[("name", BStr "Анна Каренина")]] [] []))
  = Raised NO_AWAIT_COROUTINE_QUERY.
Proof.
  exact (f_equal fst
           (main_stats_raises
              (fun _ => GetRaises (mkExc ClientError "offline"))
              (fun _ _ => true)
              (mkArgs false false true None None false)
              (mkWorld [[("name", BStr "Анна Каренина")]] [] [])
              eq_refl eq_refl eq_refl)).
Defined.
